(** * Fatigue analysis service: a shallow embedding of
      [fastapi_fatigue_analysis.py] and the properties of its calculation core.

    The Python program is modelled value by value:
    - [float] is IEEE-754 binary64, through the executable specification
      [SpecFloat] of the Standard Library (sign, mantissa, exponent; the
      operations round to nearest, ties to even, exactly as the hardware);
    - [int] is [Z];
    - [str] is [string]; [str.lower] is written out on the ASCII letters, the
      only characters whose lowering can produce a key of the property table;
    - exceptions are values of [exn], and a computation that may raise returns
      a [result];
    - [x ** 3] goes through the platform's C library, whose rounding the
      language does not fix: it is a parameter of the model ([float_pow3]),
      and [pow3_rounded] is the correctly rounded instance. *)

From Stdlib Require Import ZArith List String Ascii Bool Lia QArith Qround Qabs.
From Stdlib Require Import SpecFloat DecimalString.
Import ListNotations.

Local Open Scope Z_scope.
Local Open Scope string_scope.

(** ** The Python values the program manipulates *)

Module Py.

(** The exceptions that can leave [analyze_fatigue]: the one the program
    raises itself ([ValueError], on an unknown material) and the ones raised
    by the operators it applies. *)
Inductive exn : Type :=
  | ValueError (msg : string)
  | ZeroDivisionError (msg : string)
  | TypeError (msg : string)
  | OverflowError (msg : string).

(** [str(e)] *)
Definition str_exn (e : exn) : string :=
  match e with
  | ValueError m | ZeroDivisionError m | TypeError m | OverflowError m => m
  end.

Inductive result (A : Type) : Type :=
  | Ok (a : A)
  | Raise (e : exn).
Arguments Ok {A} a.
Arguments Raise {A} e.

Definition bind {A B} (c : result A) (k : A -> result B) : result B :=
  match c with
  | Ok a => k a
  | Raise e => Raise e
  end.

(** *** binary64 *)

Definition prec : Z := 53.
Definition emax : Z := 1024.

Definition float : Type := spec_float.

(** A Python float is always a well-formed binary64 value. *)
Definition is_binary64 (x : float) : bool := valid_binary prec emax x.

(** [float(z)] for an integer literal (exact for every integer of this
    program: 1, 2, 3, 130, 200, 620, 900, 1000). *)
Definition float_of_int (z : Z) : float := binary_normalize prec emax z 0 false.

Definition is_zero (x : float) : bool :=
  match x with
  | S754_zero _ => true
  | _ => false
  end.

Definition is_finite (x : float) : bool :=
  match x with
  | S754_zero _ | S754_finite _ _ _ => true
  | _ => false
  end.

(** [a / b] on floats: Python tests the divisor first and raises, whatever
    the dividend is (NaN included). *)
Definition float_div (a b : float) : result float :=
  if is_zero b then Raise (ZeroDivisionError "float division by zero")
  else Ok (SFdiv prec emax a b).

Definition float_sub (a b : float) : float := SFsub prec emax a b.
Definition float_mul (a b : float) : float := SFmul prec emax a b.

(** [a <= b] and [a >= b]: false as soon as one side is NaN. *)
Definition float_le (a b : float) : bool := SFleb a b.
Definition float_ge (a b : float) : bool := SFleb b a.

(** [int(x)]: truncation toward zero; NaN and the infinities raise. *)
Definition int_of_float (x : float) : result Z :=
  match x with
  | S754_nan => Raise (ValueError "cannot convert float NaN to integer")
  | S754_infinity _ => Raise (OverflowError "cannot convert float infinity to integer")
  | S754_zero _ => Ok 0
  | S754_finite s m e =>
      let a := Z.shiftl (Zpos m) e in
      Ok (if s then - a else a)
  end.

(** An integer as an exact (not normalised) float, the operand of the
    correctly rounded integer division below. *)
Definition exact_int (z : Z) : float :=
  match z with
  | Z0 => S754_zero false
  | Zpos p => S754_finite false p 0
  | Zneg p => S754_finite true p 0
  end.

(** [a / b] on ints (true division): the correctly rounded quotient of the
    two integers, a float. *)
Definition int_truediv (a b : Z) : result float :=
  if Z.eqb b 0 then Raise (ZeroDivisionError "division by zero")
  else
    match SFdiv prec emax (exact_int a) (exact_int b) with
    | S754_infinity _ => Raise (OverflowError "integer division result too large for a float")
    | q => Ok q
    end.

(** [x >= y] where [y] may be [None] *)
Definition float_ge_optional (x : float) (y : option float) : result bool :=
  match y with
  | Some v => Ok (float_ge x v)
  | None => Raise (TypeError "'>=' not supported between instances of 'float' and 'NoneType'")
  end.

(** The rational a finite float denotes (0 for the others). *)
Definition SF2Q (x : float) : Q :=
  match x with
  | S754_finite s m e =>
      let a := if s then Zneg m else Zpos m in
      match e with
      | Zneg p => a # (2 ^ p)
      | _ => inject_Z (a * 2 ^ e)
      end
  | _ => 0%Q
  end.

(** Truncation of a rational toward zero. *)
Definition Qtrunc (q : Q) : Z :=
  if Qle_bool 0 q then Qfloor q else Qceiling q.

(** *** strings *)

Definition is_upper (c : ascii) : bool :=
  let n := N_of_ascii c in (N.leb 65 n && N.leb n 90)%bool.

Definition lower_char (c : ascii) : ascii :=
  if is_upper c then ascii_of_N (N_of_ascii c + 32) else c.

(** [s.lower()] *)
Fixpoint lower (s : string) : string :=
  match s with
  | EmptyString => EmptyString
  | String c r => String (lower_char c) (lower r)
  end.

(** [str(n)] for a natural number *)
Definition str_nat (n : nat) : string := NilZero.string_of_uint (Nat.to_uint n).

(** [d.get(k)] on a dict written as its list of items *)
Fixpoint dict_get {V : Type} (d : list (string * V)) (k : string) : option V :=
  match d with
  | [] => None
  | (k', v) :: r => if String.eqb k k' then Some v else dict_get r k
  end.

End Py.

Import Py.

Notation "x <- c ;; k" := (bind c (fun x => k))
  (at level 61, c at next level, right associativity).

(** ** Data models (the pydantic classes) *)

Record FatigueInput : Type := {
  stress_amplitude : float;
  mean_stress : float;
  cycles : Z;
  material : string;
  safety_factor : option float   (* Optional[float] = 2.0 *)
}.

Record FatigueResult : Type := {
  cycles_to_failure : Z;
  safety_margin : float;
  is_safe : bool;
  analysis_method : string
}.

(** A field of a request body is left out or supplied ([null] is a supplied
    [None]). *)
Inductive field (A : Type) : Type :=
  | Omitted
  | Supplied (a : A).
Arguments Omitted {A}.
Arguments Supplied {A} a.

(** [FatigueInput(...)]: the declared default, 2.0, fills an omitted
    [safety_factor]. *)
Definition FatigueInput_init (amplitude mean : float) (n : Z) (name : string)
    (sf : field (option float)) : FatigueInput :=
  {| stress_amplitude := amplitude;
     mean_stress := mean;
     cycles := n;
     material := name;
     safety_factor := match sf with
                      | Omitted => Some (float_of_int 2)
                      | Supplied v => v
                      end |}.

(** The values of the [material_props] dict. *)
Record MaterialProps : Type := {
  endurance_limit : Z;
  fatigue_strength_coeff : Z
}.

Definition material_props : list (string * MaterialProps) :=
  [ ("steel",    {| endurance_limit := 200; fatigue_strength_coeff := 900 |});
    ("aluminum", {| endurance_limit := 130; fatigue_strength_coeff := 620 |}) ].

Definition method_label : string := "Simplified S-N Curve with Goodman Correction".

(** The error the endpoints answer with. *)
Record HTTPException : Type := {
  status_code : Z;
  detail : string
}.

Inductive response (A : Type) : Type :=
  | Returns (a : A)
  | Fails (e : HTTPException).
Arguments Returns {A} a.
Arguments Fails {A} e.

(** ** The calculation *)

Section Analysis.

(** [x ** 3] on a float. *)
Variable float_pow3 : float -> result float.

(** Line 42: the Goodman correction,
    [stress_amplitude / (1 - mean_stress / fatigue_strength_coeff)]. *)
Definition goodman_equivalent_stress (data : FatigueInput) (props : MaterialProps)
    : result float :=
  ratio <- float_div (mean_stress data) (float_of_int (fatigue_strength_coeff props)) ;;
  float_div (stress_amplitude data) (float_sub (float_of_int 1) ratio).

(** Lines 45-49: the S-N life estimate. *)
Definition sn_cycles_to_failure (props : MaterialProps) (equivalent_stress : float)
    : result Z :=
  if float_le equivalent_stress (float_of_int (endurance_limit props)) then
    Ok 10000000
  else
    base <- float_div (float_of_int (fatigue_strength_coeff props)) equivalent_stress ;;
    cube <- float_pow3 base ;;
    int_of_float (float_mul cube (float_of_int 1000)).

(** Lines 24-59. The membership test and the subscript of lines 36-39 are one
    lookup; the local variables keep their names where a field does not
    already carry it. *)
Definition analyze_fatigue (data : FatigueInput) : result FatigueResult :=
  match dict_get material_props (lower (material data)) with
  | None => Raise (ValueError ("Material '" ++ material data ++ "' not supported"))
  | Some props =>
      equivalent_stress <- goodman_equivalent_stress data props ;;
      n <- sn_cycles_to_failure props equivalent_stress ;;
      margin <- int_truediv n (cycles data) ;;
      safe <- float_ge_optional margin (safety_factor data) ;;
      Ok {| cycles_to_failure := n;
            safety_margin := margin;
            is_safe := safe;
            analysis_method := method_label |}
  end.

(** ** The endpoints *)

(** [POST /analyze] *)
Definition run_fatigue_analysis (input_data : FatigueInput) : response FatigueResult :=
  match analyze_fatigue input_data with
  | Ok r => Returns r
  | Raise e => Fails {| status_code := 400; detail := str_exn e |}
  end.

(** [GET /supported_materials] *)
Definition get_supported_materials : list string := ["steel"; "aluminum"].

(** The loop of [run_batch_analysis], entered at index [i] with the results
    gathered so far. *)
Fixpoint batch_loop (i : nat) (input_data : list FatigueInput)
    (results : list FatigueResult) : response (list FatigueResult) :=
  match input_data with
  | [] => Returns results
  | data :: rest =>
      match analyze_fatigue data with
      | Ok r => batch_loop (S i) rest (results ++ [r])
      | Raise e =>
          Fails {| status_code := 400;
                   detail := "Error in dataset " ++ str_nat (i + 1) ++ ": " ++ str_exn e |}
      end
  end.

(** [POST /analyze_batch] *)
Definition run_batch_analysis (input_data : list FatigueInput)
    : response (list FatigueResult) :=
  batch_loop 0 input_data [].

End Analysis.

(** ** A correctly rounded cube

    CPython's [float_pow] with exponent 3: NaN, the infinities, the zeros and
    1.0 are answered directly; a negative base is negated around the call; the
    remaining positive finite bases go to the C library ([pow]), and an
    infinite result of that call is an [OverflowError]. Here the library call
    is the exact cube rounded once. *)
Definition cube_rounded (x : float) : float :=
  match x with
  | S754_finite s m e => binary_round prec emax s (m * m * m)%positive (3 * e)
  | _ => x
  end.

Definition pow3_rounded (x : float) : result float :=
  match cube_rounded x with
  | S754_infinity s =>
      if is_finite x then Raise (OverflowError "(34, 'Numerical result out of range')")
      else Ok (S754_infinity s)
  | r => Ok r
  end.

(** A cube is accurate when it is the correctly rounded one or one of its two
    neighbours; a C library is asked this much wherever the cube does not
    overflow. *)
Definition near (r c : float) : Prop :=
  r = SFpred prec emax c \/ r = c \/ r = SFsucc prec emax c.

Definition accurate_pow3 (pow3 : float -> result float) : Prop :=
  forall x, is_finite (cube_rounded x) = true ->
            exists r, pow3 x = Ok r /\ near r (cube_rounded x).

(** ** Inputs used as examples *)

Definition lit (z : Z) : float := float_of_int z.

(** steel, 150 MPa, mean 0, 100000 cycles, safety factor 2.0 *)
Definition steel_case : FatigueInput :=
  FatigueInput_init (lit 150) (lit 0) 100000 "steel" (Supplied (Some (lit 2))).

(** aluminum, 200 MPa, mean 50, 50000 cycles, safety factor left out *)
Definition aluminum_case : FatigueInput :=
  FatigueInput_init (lit 200) (lit 50) 50000 "aluminum" Omitted.

Definition titanium_case : FatigueInput :=
  FatigueInput_init (lit 150) (lit 0) 100000 "Titanium" Omitted.

(** steel at its fatigue-strength coefficient, no applied cycle *)
Definition singular_zero_cycles_case : FatigueInput :=
  FatigueInput_init (lit 150) (lit 900) 0 "steel" Omitted.

Definition steel_zero_cycles_case : FatigueInput :=
  FatigueInput_init (lit 150) (lit 0) 0 "steel" Omitted.

(** steel beyond its coefficient *)
Definition over_mean_case (n : Z) : FatigueInput :=
  FatigueInput_init (lit 150) (lit 1000) n "steel" Omitted.

(** ** Notions used in the statements *)

Definition steel_props : MaterialProps :=
  {| endurance_limit := 200; fatigue_strength_coeff := 900 |}.
Definition aluminum_props : MaterialProps :=
  {| endurance_limit := 130; fatigue_strength_coeff := 620 |}.

Definition succeeds (pow3 : float -> result float) (data : FatigueInput) : Prop :=
  exists r, analyze_fatigue pow3 data = Ok r.

Definition fails (pow3 : float -> result float) (data : FatigueInput) : Prop :=
  exists e, analyze_fatigue pow3 data = Raise e.

Definition batch_error (position : nat) (e : exn) : HTTPException :=
  {| status_code := 400;
     detail := "Error in dataset " ++ str_nat position ++ ": " ++ str_exn e |}.

Definition is_lower (c : ascii) : bool :=
  let n := N_of_ascii c in (N.leb 97 n && N.leb n 122)%bool.

(** The same letter in the other case; any other character unchanged. *)
Definition swapcase_char (c : ascii) : ascii :=
  if is_upper c then ascii_of_N (N_of_ascii c + 32)
  else if is_lower c then ascii_of_N (N_of_ascii c - 32)
  else c.

(** [t] is [s] with the case of some of its letters changed. *)
Inductive case_variant : string -> string -> Prop :=
  | cv_end : case_variant EmptyString EmptyString
  | cv_keep c s t : case_variant s t -> case_variant (String c s) (String c t)
  | cv_swap c s t : case_variant s t -> case_variant (String c s) (String (swapcase_char c) t).

Definition with_material (data : FatigueInput) (name : string) : FatigueInput :=
  {| stress_amplitude := stress_amplitude data;
     mean_stress := mean_stress data;
     cycles := cycles data;
     material := name;
     safety_factor := safety_factor data |}.

(** 620 / (200 / (1 - 50 / 620)), about 2.85: the base that is cubed. *)
Definition aluminum_base : float := S754_finite false 6417629469002956 (-51).

Definition aluminum_result : FatigueResult :=
  {| cycles_to_failure := 23149;
     safety_margin := S754_finite false 8340306221919969 (-54);
     is_safe := false;
     analysis_method := method_label |}.

(** A float with sign bit [s] that is not NaN. *)
Inductive has_sign (s : bool) : float -> Prop :=
  | sign_zero : has_sign s (S754_zero s)
  | sign_finite m e : has_sign s (S754_finite s m e)
  | sign_infinity : has_sign s (S754_infinity s).

(** The mantissas of 900.0 and 620.0 (both at exponent -43). *)
Definition coefficient_mantissa (mc : positive) : Prop :=
  mc = 7916483719987200%positive \/ mc = 5453577673768960%positive.

(** The second half of [binary_round_aux]: the mantissa is already rounded
    and is shifted once more if the rounding carried. *)
Definition round_tail (s : bool) (m1 e1 : Z) : float :=
  let '(mrs2, e2) := shr_fexp prec emax m1 e1 loc_Exact in
  match shr_m mrs2 with
  | Z0 => S754_zero s
  | Zpos m => if Z.leb e2 (emax - prec) then S754_finite s m e2 else S754_infinity s
  | Zneg _ => S754_nan
  end.

(** [m * 2^e] is within two units in the last place of [|a| / |b|], and has
    the sign of the quotient. *)
Definition within_two_ulps (q : float) (a b : Z) : Prop :=
  match q with
  | S754_finite s m e =>
      s = xorb (Z.ltb a 0) (Z.ltb b 0) /\
      (Zpos m - 1) * 2 ^ Z.max 0 e * Z.abs b <= Z.abs a * 2 ^ Z.max 0 (- e)
        < (Zpos m + 2) * 2 ^ Z.max 0 e * Z.abs b
  | _ => True
  end.

(** ** Further inputs and notions *)

Definition with_safety_factor (data : FatigueInput) (sf : option float) : FatigueInput :=
  {| stress_amplitude := stress_amplitude data;
     mean_stress := mean_stress data;
     cycles := cycles data;
     material := material data;
     safety_factor := sf |}.

Definition is_nan (x : float) : bool :=
  match x with
  | S754_nan => true
  | _ => false
  end.

(** What [steel_case] returns: 10,000,000 cycles, a margin of 100.0. *)
Definition steel_result : FatigueResult :=
  {| cycles_to_failure := 10000000;
     safety_margin := S754_finite false 7036874417766400 (-46);
     is_safe := true;
     analysis_method := method_label |}.

(** steel with a negative number of applied cycles, and what it returns: a
    margin of -100.0 *)
Definition negative_cycles_case : FatigueInput :=
  FatigueInput_init (lit 150) (lit 0) (-100000) "steel" Omitted.

Definition negative_cycles_result : FatigueResult :=
  {| cycles_to_failure := 10000000;
     safety_margin := S754_finite true 7036874417766400 (-46);
     is_safe := false;
     analysis_method := method_label |}.

(** [safety_factor] given as null *)
Definition null_factor_case : FatigueInput :=
  FatigueInput_init (lit 150) (lit 0) 100000 "steel" (Supplied None).

Definition nan_amplitude_case : FatigueInput :=
  FatigueInput_init S754_nan (lit 0) 100000 "steel" Omitted.

(** no alternating stress, a mean stress beyond the coefficient *)
Definition zero_amplitude_case : FatigueInput :=
  FatigueInput_init (lit 0) (lit 1000) 100000 "steel" Omitted.

(** aluminum, an amplitude of -150 MPa *)
Definition negative_amplitude_case : FatigueInput :=
  FatigueInput_init (SFopp (lit 150)) (lit 50) 1000 "aluminum" Omitted.

(** A cube that keeps NaN and the sign of a base that is not negative, as
    [x ** 3] does. *)
Definition sign_respecting (pow3 : float -> result float) : Prop :=
  forall x c, pow3 x = Ok c ->
    (is_nan x = true -> is_nan c = true) /\
    (has_sign false x -> has_sign false c).

(** ** Auxiliary facts *)

(** *** The property table *)

Lemma dict_get_None {V} (d : list (string * V)) k :
  dict_get d k = None <-> ~ In k (map fst d).
Proof.
  induction d as [|[k' v] d IH]; simpl.
  - tauto.
  - destruct (String.eqb_spec k k') as [->|N].
    + split; [discriminate | intros H; exfalso; apply H; now left].
    + rewrite IH. split.
      * intros H [E|I]; [congruence | tauto].
      * intros H I; apply H; now right.
Qed.

Lemma material_props_cases k props :
  dict_get material_props k = Some props ->
  (k = "steel" /\ props = steel_props) \/ (k = "aluminum" /\ props = aluminum_props).
Proof.
  unfold material_props; simpl.
  destruct (String.eqb_spec k "steel") as [->|_].
  - intros [= <-]; now left.
  - destruct (String.eqb_spec k "aluminum") as [->|_].
    + intros [= <-]; now right.
    + discriminate.
Qed.

(** *** Float comparisons *)

Lemma SFeqb_finite_pos x m e :
  SFeqb x (S754_finite false m e) = true -> x = S754_finite false m e.
Proof.
  unfold SFeqb.
  destruct x as [s|s| |s m' e']; simpl; try discriminate;
    destruct s; try discriminate.
  destruct (Z.compare_spec e' e) as [->| |]; try discriminate.
  rewrite Pos.compare_cont_spec; simpl.
  destruct (Pos.compare_spec m' m) as [->| |]; try discriminate.
  reflexivity.
Qed.

(** *** The three error conditions

    An unknown material, a zero divisor in the Goodman correction and a zero
    cycle count reach the caller as three different exceptions, whatever the
    material name is. *)
Lemma error_conditions_are_told_apart (name : string) :
  ValueError ("Material '" ++ name ++ "' not supported") <>
    ZeroDivisionError "float division by zero" /\
  ValueError ("Material '" ++ name ++ "' not supported") <>
    ZeroDivisionError "division by zero" /\
  ZeroDivisionError "float division by zero" <> ZeroDivisionError "division by zero" /\
  str_exn (ZeroDivisionError "float division by zero") <>
    str_exn (ZeroDivisionError "division by zero") /\
  str_exn (ValueError ("Material '" ++ name ++ "' not supported")) <>
    str_exn (ZeroDivisionError "float division by zero") /\
  str_exn (ValueError ("Material '" ++ name ++ "' not supported")) <>
    str_exn (ZeroDivisionError "division by zero").
Proof. repeat split; discriminate. Qed.

(** *** Rounding in binary64

    The facts about [SpecFloat]'s rounding that the properties of the margin
    and of the sign of the equivalent stress need: what a right shift leaves
    of a mantissa, when a rounding can give zero, and when it stays finite. *)

Lemma digits2_pos_size p : digits2_pos p = Pos.size p.
Proof. induction p; simpl; congruence. Qed.

Lemma digits2_pos_bounds p :
  2 ^ (Zpos (digits2_pos p) - 1) <= Zpos p < 2 ^ Zpos (digits2_pos p).
Proof.
  rewrite digits2_pos_size.
  pose proof (Pos.size_gt p) as Hgt. pose proof (Pos.size_le p) as Hle.
  apply Pos2Z.pos_lt_pos in Hgt. apply Pos2Z.pos_le_pos in Hle.
  rewrite Pos2Z.inj_pow in Hgt, Hle.
  replace (Zpos (Pos.size p)) with (Z.succ (Zpos (Pos.size p) - 1)) in Hle at 1 by lia.
  rewrite Z.pow_succ_r in Hle by lia.
  change (Z.pos p~0) with (2 * Z.pos p) in Hle. lia.
Qed.

Lemma Zdigits2_interval z k :
  0 < k -> 2 ^ (k - 1) <= z < 2 ^ k -> Zdigits2 z = k.
Proof.
  intros Hk [Hlo Hhi].
  assert (0 < z) by (pose proof (Z.pow_pos_nonneg 2 (k - 1)); lia).
  destruct z as [|p|p]; try lia. simpl.
  pose proof (digits2_pos_bounds p) as [Dlo Dhi].
  set (d := Zpos (digits2_pos p)) in *.
  assert (d - 1 < k) by (apply (Z.pow_lt_mono_r_iff 2); lia).
  assert (k - 1 < d) by (apply (Z.pow_lt_mono_r_iff 2); lia).
  lia.
Qed.

Lemma Zdigits2_le z k : 0 <= k -> 0 <= z < 2 ^ k -> Zdigits2 z <= k.
Proof.
  intros Hk [Hlo Hhi]. destruct z as [|p|p]; simpl; try lia.
  pose proof (digits2_pos_bounds p) as [Dlo Dhi].
  set (d := Zpos (digits2_pos p)) in *.
  assert (d - 1 < k) by (apply (Z.pow_lt_mono_r_iff 2); lia).
  lia.
Qed.

(** shifting right *)
Lemma shr_1_m mrs : 0 <= shr_m mrs -> shr_m (shr_1 mrs) = shr_m mrs / 2.
Proof.
  destruct mrs as [m r s]; simpl. intros H.
  destruct m as [|[p|p|]|p]; try lia; simpl.
  - reflexivity.
  - rewrite Pos2Z.inj_xI. apply (Z.div_unique_pos _ _ _ 1); lia.
  - rewrite Pos2Z.inj_xO. apply (Z.div_unique_pos _ _ _ 0); lia.
  - reflexivity.
Qed.

Lemma pow2_xO p : 2 ^ Zpos p~0 = 2 ^ Zpos p * 2 ^ Zpos p.
Proof.
  replace (Zpos p~0) with (Zpos p + Zpos p) by lia.
  apply Z.pow_add_r; lia.
Qed.

Lemma pow2_xI p : 2 ^ Zpos p~1 = 2 * (2 ^ Zpos p * 2 ^ Zpos p).
Proof.
  replace (Zpos p~1) with (Z.succ (Zpos p + Zpos p)) by lia.
  rewrite Z.pow_succ_r, Z.pow_add_r by lia. reflexivity.
Qed.

Lemma iter_shr_1_m p : forall mrs,
  0 <= shr_m mrs -> shr_m (iter_pos shr_1 p mrs) = shr_m mrs / 2 ^ Zpos p.
Proof.
  induction p as [p IH|p IH|]; intros mrs H; simpl iter_pos.
  - assert (H1 : 0 <= shr_m (shr_1 mrs)) by (rewrite shr_1_m by lia; apply Z.div_pos; lia).
    assert (H2 : 0 <= shr_m (iter_pos shr_1 p (shr_1 mrs)))
      by (rewrite IH by lia; apply Z.div_pos; [lia | apply Z.pow_pos_nonneg; lia]).
    assert (0 < 2 ^ Zpos p) by (apply Z.pow_pos_nonneg; lia).
    rewrite IH, IH, shr_1_m by lia.
    rewrite !Z.div_div by lia.
    now rewrite pow2_xI.
  - assert (H2 : 0 <= shr_m (iter_pos shr_1 p mrs))
      by (rewrite IH by lia; apply Z.div_pos; [lia | apply Z.pow_pos_nonneg; lia]).
    assert (0 < 2 ^ Zpos p) by (apply Z.pow_pos_nonneg; lia).
    rewrite IH, IH by lia.
    rewrite !Z.div_div by lia.
    now rewrite pow2_xO.
  - rewrite shr_1_m by lia. reflexivity.
Qed.

Lemma shr_record_of_loc_m m l : shr_m (shr_record_of_loc m l) = m.
Proof. destruct l as [|[]]; reflexivity. Qed.

Lemma loc_of_shr_record_of_loc m l : loc_of_shr_record (shr_record_of_loc m l) = l.
Proof. destruct l as [|[]]; reflexivity. Qed.

Lemma round_nearest_even_bounds m l :
  m <= round_nearest_even m l <= m + 1.
Proof.
  unfold round_nearest_even. destruct l as [|[]]; try lia.
  destruct (Z.even m); lia.
Qed.

Lemma shr_m_value mrs e n :
  0 <= shr_m mrs ->
  shr_m (fst (shr mrs e n)) = shr_m mrs / 2 ^ Z.max 0 n /\
  snd (shr mrs e n) = e + Z.max 0 n.
Proof.
  intros H. destruct n as [|p|p]; simpl.
  - rewrite Z.div_1_r. lia.
  - rewrite iter_shr_1_m by lia. split; [reflexivity|lia].
  - rewrite Z.div_1_r. lia.
Qed.

Lemma fexp64 x : fexp prec emax x = Z.max (x - 53) (-1074).
Proof. reflexivity. Qed.

(** After [shr_fexp] a non-negative mantissa is still non-negative; a
    positive one stays positive when the exponent is at least [emin]. *)
Lemma shr_fexp_facts m e l :
  0 <= m ->
  let n := Z.max 0 (fexp prec emax (Zdigits2 m + e) - e) in
  shr_m (fst (shr_fexp prec emax m e l)) = m / 2 ^ n /\
  snd (shr_fexp prec emax m e l) = e + n.
Proof.
  intros H n. unfold shr_fexp.
  pose proof (shr_m_value (shr_record_of_loc m l) e
                (fexp prec emax (Zdigits2 m + e) - e)) as V.
  rewrite shr_record_of_loc_m in V. apply V. exact H.
Qed.

Lemma shr_fexp_positive m e l :
  0 < m -> -1074 <= e ->
  0 < shr_m (fst (shr_fexp prec emax m e l)) /\
  -1074 <= snd (shr_fexp prec emax m e l).
Proof.
  intros Hm He.
  destruct (shr_fexp_facts m e l) as [Vm Ve]; [lia|].
  rewrite Vm, Ve. clear Vm Ve.
  rewrite fexp64.
  destruct m as [|p|p]; try lia. simpl Zdigits2.
  pose proof (digits2_pos_bounds p) as [Dlo Dhi].
  set (d := Zpos (digits2_pos p)) in *.
  assert (0 < d) by (unfold d; lia).
  split; [|lia].
  destruct (Z.le_gt_cases d 53) as [Hd|Hd].
  - replace (Z.max 0 (Z.max (d + e - 53) (-1074) - e)) with 0 by lia.
    rewrite Z.div_1_r. lia.
  - replace (Z.max 0 (Z.max (d + e - 53) (-1074) - e)) with (d - 53) by lia.
    assert (0 < 2 ^ (d - 53)) by (apply Z.pow_pos_nonneg; lia).
    assert (2 ^ 52 <= Zpos p / 2 ^ (d - 53)).
    { apply Z.div_le_lower_bound; [lia|].
      rewrite <- Z.pow_add_r by lia. replace (d - 53 + 52) with (d - 1) by lia. lia. }
    lia.
Qed.

Lemma binary_round_aux_sign s m e l :
  0 <= m -> has_sign s (binary_round_aux prec emax s m e l).
Proof.
  intros Hm. unfold binary_round_aux.
  destruct (shr_fexp_facts m e l Hm) as [V1 _].
  destruct (shr_fexp prec emax m e l) as [mrs1 e1]. simpl fst in V1.
  assert (H1 : 0 <= shr_m mrs1).
  { rewrite V1. apply Z.div_pos; [lia|]. apply Z.pow_pos_nonneg; lia. }
  pose proof (round_nearest_even_bounds (shr_m mrs1) (loc_of_shr_record mrs1)) as R.
  set (m1 := round_nearest_even (shr_m mrs1) (loc_of_shr_record mrs1)) in *.
  destruct (shr_fexp_facts m1 e1 loc_Exact) as [V2 _]; [lia|].
  destruct (shr_fexp prec emax m1 e1 loc_Exact) as [mrs2 e2]. simpl fst in V2.
  assert (H2 : 0 <= shr_m mrs2).
  { rewrite V2. apply Z.div_pos; [lia|]. apply Z.pow_pos_nonneg; lia. }
  destruct (shr_m mrs2) as [|p|p]; try lia.
  - constructor.
  - destruct (Z.leb e2 (emax - prec)); constructor.
Qed.

(** A positive mantissa at an exponent no lower than [emin] never rounds to
    zero. *)
Lemma binary_round_aux_nonzero s m e l :
  0 < m -> -1074 <= e ->
  (exists m' e', binary_round_aux prec emax s m e l = S754_finite s m' e') \/
  binary_round_aux prec emax s m e l = S754_infinity s.
Proof.
  intros Hm He. unfold binary_round_aux.
  destruct (shr_fexp_positive m e l Hm He) as [P1 E1].
  destruct (shr_fexp prec emax m e l) as [mrs1 e1]. simpl fst in P1; simpl snd in E1.
  pose proof (round_nearest_even_bounds (shr_m mrs1) (loc_of_shr_record mrs1)) as R.
  set (m1 := round_nearest_even (shr_m mrs1) (loc_of_shr_record mrs1)) in *.
  destruct (shr_fexp_positive m1 e1 loc_Exact) as [P2 E2]; [lia|lia|].
  destruct (shr_fexp prec emax m1 e1 loc_Exact) as [mrs2 e2]. simpl fst in P2.
  destruct (shr_m mrs2) as [|p|p]; try lia.
  destruct (Z.leb e2 (emax - prec)); [left; eauto | right; reflexivity].
Qed.

Lemma shl_align_exponent mx ex ex' :
  snd (shl_align mx ex ex') = Z.min ex ex'.
Proof.
  unfold shl_align. destruct (ex' - ex) eqn:E; simpl; lia.
Qed.

Lemma binary_round_nonzero s m e :
  -1074 <= e ->
  (exists m' e', binary_round prec emax s m e = S754_finite s m' e') \/
  binary_round prec emax s m e = S754_infinity s.
Proof.
  intros He. unfold binary_round.
  pose proof (shl_align_exponent m e (fexp prec emax (Zpos (digits2_pos m) + e))) as A.
  destruct (shl_align m e (fexp prec emax (Z.pos (digits2_pos m) + e))) as [mz ez].
  simpl snd in A. rewrite fexp64 in A.
  apply binary_round_aux_nonzero; lia.
Qed.

(** Rounding a mantissa below [2^k] at exponent [e] stays finite as long as
    the value is below [2^1023]. *)
Lemma binary_round_aux_finite s m e l k :
  0 <= k -> 0 <= m < 2 ^ k -> e <= 970 -> k + e <= 1023 ->
  is_finite (binary_round_aux prec emax s m e l) = true.
Proof.
  intros Hk [Hm0 Hmk] He Hke. unfold binary_round_aux.
  destruct (shr_fexp_facts m e l Hm0) as [V1 E1].
  destruct (shr_fexp prec emax m e l) as [mrs1 e1]. simpl fst in V1; simpl snd in E1.
  rewrite fexp64 in V1, E1.
  pose proof (Zdigits2_le m k Hk (conj Hm0 Hmk)) as D.
  assert (Dn : 0 <= Zdigits2 m) by (destruct m; simpl; lia).
  set (n := Z.max 0 (Z.max (Zdigits2 m + e - 53) (-1074) - e)) in *.
  assert (Hn : 0 <= n) by lia.
  assert (P : 0 < 2 ^ n) by (apply Z.pow_pos_nonneg; lia).
  assert (H1 : 0 <= shr_m mrs1) by (rewrite V1; apply Z.div_pos; lia).
  set (k1 := Z.max (k - n) 0).
  assert (B1 : shr_m mrs1 < 2 ^ k1).
  { rewrite V1. destruct (Z.le_gt_cases n k) as [Hnk|Hnk].
    - replace k1 with (k - n) by lia.
      apply Z.div_lt_upper_bound; [lia|].
      rewrite <- Z.pow_add_r by lia. replace (n + (k - n)) with k by lia. lia.
    - replace k1 with 0 by lia. rewrite Z.div_small; [reflexivity|].
      split; [lia|]. apply Z.lt_le_trans with (2 ^ k); [lia|].
      apply Z.pow_le_mono_r; lia. }
  pose proof (round_nearest_even_bounds (shr_m mrs1) (loc_of_shr_record mrs1)) as R.
  set (m1 := round_nearest_even (shr_m mrs1) (loc_of_shr_record mrs1)) in *.
  assert (B2 : 0 <= m1 < 2 ^ (k1 + 1)).
  { split; [lia|]. rewrite Z.pow_add_r, Z.pow_1_r by lia.
    assert (0 < 2 ^ k1) by (apply Z.pow_pos_nonneg; lia). lia. }
  pose proof (Zdigits2_le m1 (k1 + 1) ltac:(lia) B2) as D1.
  destruct (shr_fexp_facts m1 e1 loc_Exact) as [V2 E2]; [lia|].
  destruct (shr_fexp prec emax m1 e1 loc_Exact) as [mrs2 e2]. simpl fst in V2; simpl snd in E2.
  rewrite fexp64 in E2.
  assert (Hle : e2 <= 971) by lia.
  assert (H2 : 0 <= shr_m mrs2).
  { rewrite V2. apply Z.div_pos; [lia|]. apply Z.pow_pos_nonneg; lia. }
  destruct (shr_m mrs2) as [|p|p]; [reflexivity| |lia].
  change (emax - prec) with 971.
  destruct (Z.leb_spec e2 971); [reflexivity|lia].
Qed.

(** The margin of a capped life: [10000000 / c] never overflows. *)
Lemma cap_truediv c :
  c <> 0 ->
  int_truediv 10000000 c = Ok (SFdiv prec emax (exact_int 10000000) (exact_int c)).
Proof.
  intros Hc. unfold int_truediv.
  destruct (Z.eqb_spec c 0) as [|_]; [contradiction|].
  assert (F : is_finite (SFdiv prec emax (exact_int 10000000) (exact_int c)) = true).
  { assert (G : forall s p, is_finite (SFdiv prec emax (S754_finite false 10000000 0)
                                             (S754_finite s p 0)) = true).
    { intros s p. unfold SFdiv, SFdiv_core_binary.
      change (Zdigits2 (Zpos 10000000)) with 24. simpl Zdigits2.
      pose proof (digits2_pos_bounds p) as [Dlo Dhi].
      set (d := Zpos (digits2_pos p)) in *.
      assert (0 < d) by (unfold d; lia).
      rewrite fexp64.
      replace (Z.min (Z.max (24 + 0 - (d + 0) - 53) (-1074)) (0 - 0))
        with (Z.max (- 29 - d) (-1074)) by lia.
      set (e' := Z.max (- 29 - d) (-1074)).
      assert (He' : e' < 0) by (unfold e'; lia).
      replace (0 - 0 - e') with (- e') by lia.
      destruct (- e') as [|sh|sh] eqn:Esh; try lia.
      rewrite Z.shiftl_mul_pow2 by lia.
      assert (P : 0 < 2 ^ Zpos sh) by (apply Z.pow_pos_nonneg; lia).
      pose proof (Z_div_mod (10000000 * 2 ^ Zpos sh) (Zpos p) ltac:(lia)) as DM.
      destruct (Z.div_eucl (10000000 * 2 ^ Zpos sh) (Zpos p)) as [q r].
      apply (binary_round_aux_finite _ _ _ _ (24 + Zpos sh)); try lia.
      assert (0 <= q) by nia.
      split; [lia|].
      rewrite Z.pow_add_r by lia. change (2 ^ 24) with 16777216. nia. }
    destruct c as [|p|p]; [contradiction| |]; apply G. }
  destruct (SFdiv prec emax (exact_int 10000000) (exact_int c)); try reflexivity.
  discriminate F.
Qed.

(** *** The quotient of two integers

    A rounding moves a mantissa by less than one unit at each of its two
    shifts, so the float quotient of two integers is within two units in the
    last place of their exact quotient. *)

Lemma binary_round_aux_bracket s m e l s' mq eq :
  0 <= m ->
  binary_round_aux prec emax s m e l = S754_finite s' mq eq ->
  s' = s /\ e <= eq /\
  (Zpos mq - 1) * 2 ^ (eq - e) <= m /\
  m + 1 <= (Zpos mq + 2) * 2 ^ (eq - e).
Proof.
  intros Hm. unfold binary_round_aux.
  destruct (shr_fexp_facts m e l Hm) as [V1 E1].
  destruct (shr_fexp prec emax m e l) as [mrs1 e1]. simpl fst in V1; simpl snd in E1.
  set (n1 := Z.max 0 (fexp prec emax (Zdigits2 m + e) - e)) in *.
  assert (N1 : 0 <= n1) by (unfold n1; lia).
  assert (P1 : 0 < 2 ^ n1) by (apply Z.pow_pos_nonneg; lia).
  assert (H1 : 0 <= shr_m mrs1) by (rewrite V1; apply Z.div_pos; lia).
  pose proof (round_nearest_even_bounds (shr_m mrs1) (loc_of_shr_record mrs1)) as R.
  set (m1 := round_nearest_even (shr_m mrs1) (loc_of_shr_record mrs1)) in *.
  destruct (shr_fexp_facts m1 e1 loc_Exact) as [V2 E2]; [lia|].
  destruct (shr_fexp prec emax m1 e1 loc_Exact) as [mrs2 e2]. simpl fst in V2; simpl snd in E2.
  set (n2 := Z.max 0 (fexp prec emax (Zdigits2 m1 + e1) - e1)) in *.
  assert (N2 : 0 <= n2) by (unfold n2; lia).
  assert (P2 : 0 < 2 ^ n2) by (apply Z.pow_pos_nonneg; lia).
  destruct (shr_m mrs2) as [|p|p] eqn:M2; try discriminate.
  destruct (Z.leb e2 (emax - prec)); [|discriminate].
  intros [= <- <- <-].
  split; [reflexivity|]. split; [lia|].
  replace (e2 - e) with (n1 + n2) by lia.
  rewrite Z.pow_add_r by lia.
  pose proof (Z.mul_div_le m (2 ^ n1) P1) as A1.
  pose proof (Z.mul_succ_div_gt m (2 ^ n1) P1) as A2.
  pose proof (Z.mul_div_le m1 (2 ^ n2) P2) as B1.
  pose proof (Z.mul_succ_div_gt m1 (2 ^ n2) P2) as B2.
  rewrite <- V1 in A1, A2. rewrite <- V2 in B1, B2.
  set (u := shr_m mrs1) in *. set (A := 2 ^ n1) in *. set (B := 2 ^ n2) in *.
  clearbody u A B m1. clear - A1 A2 B1 B2 R P1 P2 H1 Hm.
  split; nia.
Qed.

Lemma SFdiv_ints_bracket sa pa sb pb s mq eq :
  SFdiv prec emax (S754_finite sa pa 0) (S754_finite sb pb 0) = S754_finite s mq eq ->
  s = xorb sa sb /\
  (Zpos mq - 1) * 2 ^ Z.max 0 eq * Zpos pb <= Zpos pa * 2 ^ Z.max 0 (- eq)
    < (Zpos mq + 2) * 2 ^ Z.max 0 eq * Zpos pb.
Proof.
  unfold SFdiv, SFdiv_core_binary.
  set (e' := Z.min (fexp prec emax (Zdigits2 (Zpos pa) + 0 - (Zdigits2 (Zpos pb) + 0))) (0 - 0)).
  assert (He' : e' <= 0) by (unfold e'; lia).
  set (m' := match 0 - 0 - e' with
             | 0 => Zpos pa
             | Zpos _ => Z.shiftl (Zpos pa) (0 - 0 - e')
             | Zneg _ => 0
             end).
  assert (M : m' = Zpos pa * 2 ^ (- e')).
  { unfold m'. replace (0 - 0 - e') with (- e') by lia.
    destruct (- e') as [|p|p] eqn:E; try lia.
    now rewrite Z.shiftl_mul_pow2 by lia. }
  clearbody m'. 
  assert (P : 0 < 2 ^ (- e')) by (apply Z.pow_pos_nonneg; lia).
  pose proof (Z_div_mod m' (Zpos pb) ltac:(lia)) as DM.
  destruct (Z.div_eucl m' (Zpos pb)) as [q r]. destruct DM as [DM Hr].
  assert (Hq : 0 <= q) by nia.
  intros H. apply binary_round_aux_bracket in H; [|exact Hq].
  destruct H as (-> & Hle & Lo & Hi). split; [reflexivity|].
  set (k := eq - e') in *.
  assert (K : 0 <= k) by (unfold k; lia).
  assert (PK : 0 < 2 ^ k) by (apply Z.pow_pos_nonneg; lia).
  (* (mq-1) 2^k b <= a 2^(-e') < (mq+2) 2^k b *)
  assert (L1 : (Zpos mq - 1) * 2 ^ k * Zpos pb <= Zpos pa * 2 ^ (- e')) by nia.
  assert (L2 : Zpos pa * 2 ^ (- e') < (Zpos mq + 2) * 2 ^ k * Zpos pb) by nia.
  destruct (Z.le_gt_cases 0 eq) as [Hpos|Hneg].
  - replace (Z.max 0 eq) with eq by lia. replace (Z.max 0 (- eq)) with 0 by lia.
    rewrite Z.pow_0_r, Z.mul_1_r.
    assert (E : 2 ^ k = 2 ^ eq * 2 ^ (- e')).
    { unfold k. rewrite <- Z.pow_add_r by lia. f_equal; lia. }
    rewrite E in L1, L2.
    assert (PE : 0 < 2 ^ eq) by (apply Z.pow_pos_nonneg; lia).
    set (A := 2 ^ eq) in *. set (B := 2 ^ (- e')) in *.
    clearbody A B. split; nia.
  - replace (Z.max 0 eq) with 0 by lia. replace (Z.max 0 (- eq)) with (- eq) by lia.
    rewrite Z.pow_0_r, Z.mul_1_r.
    assert (E : 2 ^ (- e') = 2 ^ (- eq) * 2 ^ k).
    { unfold k. rewrite <- Z.pow_add_r by lia. f_equal; lia. }
    rewrite E in L1, L2.
    assert (PE : 0 < 2 ^ (- eq)) by (apply Z.pow_pos_nonneg; lia).
    set (A := 2 ^ (- eq)) in *. set (B := 2 ^ k) in *.
    clearbody A B. split; nia.
Qed.

Lemma int_truediv_within_two_ulps a b q :
  int_truediv a b = Ok q -> within_two_ulps q a b.
Proof.
  unfold int_truediv. destruct (Z.eqb_spec b 0) as [|Hb]; [discriminate|].
  destruct (SFdiv prec emax (exact_int a) (exact_int b)) as [s|s| |s m e] eqn:E;
    try discriminate; intros [= <-]; try exact I.
  unfold within_two_ulps.
  destruct a as [|pa|pa]; destruct b as [|pb|pb]; try contradiction;
    try discriminate E; cbn [exact_int] in E;
    apply SFdiv_ints_bracket in E; exact E.
Qed.

(** *** Dividing by a fatigue-strength coefficient *)

Lemma quotient_range mc mm q r :
  coefficient_mantissa mc ->
  2 ^ 52 <= Zpos mm < 2 ^ 53 ->
  Zpos mm * 2 ^ 53 = Zpos mc * q + r -> 0 <= r < Zpos mc ->
  2 ^ 52 < q < 2 ^ 54 /\
  (Zpos mc < Zpos mm -> 2 ^ 53 < q /\ (q = 2 ^ 53 + 1 -> r <> 0)).
Proof.
  change (2 ^ 52) with 4503599627370496.
  change (2 ^ 53) with 9007199254740992.
  change (2 ^ 54) with 18014398509481984.
  intros [-> | ->]; lia.
Qed.

Lemma div_core_by_coefficient mm em mc :
  Zpos (digits2_pos mm) = 53 -> Zpos (digits2_pos mc) = 53 -> -1000 <= em ->
  SFdiv_core_binary prec emax (Zpos mm) em (Zpos mc) (-43) =
    (let '(q, r) := Z.div_eucl (Zpos mm * 2 ^ 53) (Zpos mc) in
     (q, em - 10, new_location (Zpos mc) r)).
Proof.
  intros Hm Hc He. unfold SFdiv_core_binary. simpl Zdigits2.
  rewrite Hm, Hc, fexp64.
  replace (Z.min (Z.max (53 + em - (53 + -43) - 53) (-1074)) (em - -43))
    with (em - 10) by lia.
  replace (em - -43 - (em - 10)) with 53 by lia.
  rewrite <- Z.shiftl_mul_pow2 by lia.
  reflexivity.
Qed.

Lemma binary_round_aux_tail s m e l :
  binary_round_aux prec emax s m e l =
    let '(mrs1, e1) := shr_fexp prec emax m e l in
    round_tail s (round_nearest_even (shr_m mrs1) (loc_of_shr_record mrs1)) e1.
Proof. reflexivity. Qed.

Lemma round_finish s m1 e1 :
  2 ^ 52 <= m1 <= 2 ^ 53 -> -1074 <= e1 <= 970 ->
  exists mq eq, round_tail s m1 e1 = S754_finite s mq eq /\
    ((m1 < 2 ^ 53 /\ eq = e1 /\ Zpos mq = m1) \/
     (m1 = 2 ^ 53 /\ eq = e1 + 1 /\ Zpos mq = 2 ^ 52)).
Proof.
  intros Hm He. unfold round_tail.
  destruct (shr_fexp_facts m1 e1 loc_Exact) as [V E]; [lia|].
  destruct (shr_fexp prec emax m1 e1 loc_Exact) as [mrs2 e2].
  simpl fst in V; simpl snd in E. rewrite fexp64 in V, E.
  change (emax - prec) with 971.
  destruct (Z.eq_dec m1 (2 ^ 53)) as [->|Hne].
  - change (Zdigits2 (2 ^ 53)) with 54 in V, E.
    replace (Z.max 0 (Z.max (54 + e1 - 53) (-1074) - e1)) with 1 in V, E by lia.
    change (2 ^ 53 / 2 ^ 1) with (2 ^ 52) in V.
    rewrite V. change (2 ^ 52) with (Zpos 4503599627370496).
    destruct (Z.leb_spec e2 971); [|lia].
    exists 4503599627370496%positive, e2. split; [reflexivity|]. right. lia.
  - rewrite (Zdigits2_interval m1 53) in V, E by lia.
    replace (Z.max 0 (Z.max (53 + e1 - 53) (-1074) - e1)) with 0 in V, E by lia.
    rewrite Z.div_1_r in V. rewrite V.
    destruct m1 as [|p|p]; try lia.
    destruct (Z.leb_spec e2 971); [|lia].
    exists p, e2. split; [reflexivity|]. left. lia.
Qed.

(** Rounding a quotient of 53 or 54 bits. *)
Lemma round_quotient s q e l :
  2 ^ 52 <= q < 2 ^ 54 -> -1074 <= e <= 969 ->
  exists mq eq,
    binary_round_aux prec emax s q e l = S754_finite s mq eq /\
    2 ^ 52 <= Zpos mq < 2 ^ 53 /\
    ((q < 2 ^ 53 /\ ((eq = e /\ q <= Zpos mq) \/ eq = e + 1)) \/
     (2 ^ 53 <= q /\
      ((eq = e + 1 /\ q / 2 <= Zpos mq /\
        (Z.odd q = true -> l <> loc_Exact -> q / 2 < Zpos mq)) \/
       eq = e + 2))).
Proof.
  intros Hq He. rewrite binary_round_aux_tail.
  destruct (Z.lt_ge_cases q (2 ^ 53)) as [Hlt|Hge].
  - (* 53 bits: no shift *)
    unfold shr_fexp. rewrite (Zdigits2_interval q 53) by lia.
    rewrite fexp64. replace (Z.max (53 + e - 53) (-1074) - e) with 0 by lia.
    cbn [shr]. rewrite shr_record_of_loc_m, loc_of_shr_record_of_loc.
    pose proof (round_nearest_even_bounds q l) as B.
    destruct (round_finish s (round_nearest_even q l) e) as (mq & eq & -> & C);
      [lia|lia|].
    exists mq, eq. split; [reflexivity|]. split; [lia|]. left. split; [lia|].
    destruct C as [C|C]; [left|right]; lia.
  - (* 54 bits: one shift *)
    unfold shr_fexp. rewrite (Zdigits2_interval q 54) by lia.
    rewrite fexp64. replace (Z.max (54 + e - 53) (-1074) - e) with 1 by lia.
    cbn [shr iter_pos].
    set (mrs1 := shr_1 (shr_record_of_loc q l)).
    assert (M : shr_m mrs1 = q / 2).
    { unfold mrs1. rewrite shr_1_m; rewrite shr_record_of_loc_m; lia. }
    assert (Q2 : 2 ^ 52 <= q / 2 < 2 ^ 53).
    { split; [apply Z.div_le_lower_bound; lia | apply Z.div_lt_upper_bound; lia]. }
    pose proof (round_nearest_even_bounds (shr_m mrs1) (loc_of_shr_record mrs1)) as B.
    assert (U : Z.odd q = true -> l <> loc_Exact ->
                round_nearest_even (shr_m mrs1) (loc_of_shr_record mrs1) = q / 2 + 1).
    { rewrite <- M. unfold mrs1. intros Ho Hl.
      destruct q as [|[p|p|]|p]; try discriminate Ho; try lia.
      destruct l as [|[]]; [contradiction| | |]; reflexivity. }
    destruct (round_finish s (round_nearest_even (shr_m mrs1) (loc_of_shr_record mrs1))
                (e + 1)) as (mq & eq & -> & C); [lia|lia|].
    exists mq, eq. split; [reflexivity|]. split; [lia|]. right. split; [lia|].
    destruct C as [C|C]; [left|right; lia].
    split; [lia|]. split; [lia|]. intros Ho Hl. rewrite (U Ho Hl) in C. lia.
Qed.

Lemma new_location_exact n r : new_location n r = loc_Exact -> r = 0.
Proof.
  unfold new_location, new_location_even, new_location_odd.
  destruct (Z.even n); destruct (Z.eqb_spec r 0); auto; discriminate.
Qed.

(** A binary64 value above a coefficient, divided by it, is a finite float
    above 1. *)
Lemma div_by_coefficient_above_one mc mm em :
  coefficient_mantissa mc ->
  bounded prec emax mm em = true ->
  SFltb (S754_finite false mc (-43)) (S754_finite false mm em) = true ->
  exists mq eq,
    SFdiv prec emax (S754_finite false mm em) (S754_finite false mc (-43)) =
      S754_finite false mq eq /\
    Zpos mq < 2 ^ 53 /\ eq <= 963 /\
    ((eq = -52 /\ 2 ^ 52 < Zpos mq) \/ (-51 <= eq /\ 2 ^ 52 <= Zpos mq)).
Proof.
  intros Hc Hb Hlt.
  (* the order *)
  assert (O : -43 < em \/ (em = -43 /\ Zpos mc < Zpos mm)).
  { unfold SFltb, SFcompare in Hlt.
    destruct (Z.compare_spec (-43) em) as [<-| |]; try discriminate; [right|left; lia].
    split; [reflexivity|]. rewrite Pos.compare_cont_spec in Hlt. simpl in Hlt.
    destruct (Pos.compare_spec mc mm); try discriminate. lia. }
  (* the mantissas have 53 bits *)
  unfold bounded, canonical_mantissa in Hb.
  apply andb_prop in Hb. destruct Hb as [Hcan Hmax].
  apply Z.eqb_eq in Hcan. apply Z.leb_le in Hmax. rewrite fexp64 in Hcan.
  change (emax - prec) with 971 in Hmax.
  assert (Dm : Zpos (digits2_pos mm) = 53) by lia.
  assert (Dc : Zpos (digits2_pos mc) = 53) by (destruct Hc as [-> | ->]; reflexivity).
  pose proof (digits2_pos_bounds mm) as Bm. rewrite Dm in Bm.
  change (2 ^ (53 - 1)) with (2 ^ 52) in Bm.
  (* the quotient *)
  unfold SFdiv. rewrite (div_core_by_coefficient mm em mc Dm Dc) by lia.
  pose proof (Z_div_mod (Zpos mm * 2 ^ 53) (Zpos mc) ltac:(lia)) as DM.
  destruct (Z.div_eucl (Zpos mm * 2 ^ 53) (Zpos mc)) as [qz r].
  destruct DM as [DM Hr].
  destruct (quotient_range mc mm qz r Hc Bm DM Hr) as [Hq Hgt].
  cbn [xorb].
  destruct (round_quotient false qz (em - 10) (new_location (Zpos mc) r))
    as (mq & eq & -> & Hmq & C); [lia|lia|].
  exists mq, eq. split; [reflexivity|]. split; [lia|].
  split; [destruct C as [[_ [[-> _]| ->]]|[_ [[-> _]| ->]]]; lia|].
  destruct O as [O|[-> O]].
  - destruct C as [[Hlo [[-> C]| ->]]|[Hhi [[-> C]| ->]]]; try (right; lia).
    destruct (Z.eq_dec em (-42)) as [->|]; [left|right]; lia.
  - destruct (Hgt O) as [G1 G2].
    destruct C as [[Hlo _]|[Hhi [[-> [C1 C2]]| ->]]]; [lia| |right; lia].
    left. split; [lia|].
    destruct (Z.eq_dec qz (2 ^ 53 + 1)) as [->|Hne].
    + assert (L : new_location (Zpos mc) r <> loc_Exact).
      { intros L. apply new_location_exact in L. now apply G2. }
      specialize (C2 eq_refl L). change ((2 ^ 53 + 1) / 2) with (2 ^ 52) in C2. lia.
    + assert (2 ^ 52 + 1 <= qz / 2) by (apply Z.div_le_lower_bound; lia). lia.
Qed.

(** *** One minus a value above one *)

Lemma iter_xO_value m d : Zpos (Pos.iter xO m d) = Zpos m * 2 ^ Zpos d.
Proof.
  induction d as [|d IH] using Pos.peano_ind.
  - simpl. lia.
  - rewrite Pos.iter_succ, Pos2Z.inj_xO, IH, Pos2Z.inj_succ, Z.pow_succ_r by lia. lia.
Qed.

Lemma binary_round_finite s p e k :
  0 <= k -> Zpos p < 2 ^ k -> e <= 970 -> k + e <= 1023 ->
  is_finite (binary_round prec emax s p e) = true.
Proof.
  intros Hk Hp He Hke. unfold binary_round, shl_align.
  set (e' := fexp prec emax (Zpos (digits2_pos p) + e)).
  destruct (e' - e) as [|d|d] eqn:E.
  - apply (binary_round_aux_finite _ _ _ _ k); lia.
  - apply (binary_round_aux_finite _ _ _ _ k); lia.
  - apply (binary_round_aux_finite _ _ _ _ (k + Zpos d)); try lia.
    rewrite iter_xO_value, Z.pow_add_r by lia.
    assert (0 < 2 ^ Zpos d) by (apply Z.pow_pos_nonneg; lia). nia.
Qed.

(** [1 - q] for a finite [q] above 1 is a finite negative float. *)
Lemma one_minus_above_one mq eq :
  Zpos mq < 2 ^ 53 -> eq <= 963 ->
  (eq = -52 /\ 2 ^ 52 < Zpos mq) \/ (-51 <= eq /\ 2 ^ 52 <= Zpos mq) ->
  exists m e, float_sub (float_of_int 1) (S754_finite false mq eq) = S754_finite true m e.
Proof.
  intros Hmq Heq H.
  change (float_of_int 1) with (S754_finite false 4503599627370496 (-52)).
  unfold float_sub, SFsub.
  replace (Z.min (-52) eq) with (-52) by lia.
  change (fst (shl_align 4503599627370496 (-52) (-52))) with 4503599627370496%positive.
  cbn [cond_Zopp].
  assert (V : Zpos (fst (shl_align mq eq (-52))) = Zpos mq * 2 ^ (eq + 52)).
  { unfold shl_align. destruct (-52 - eq) as [|p|p] eqn:E; try lia; cbn [fst].
    - replace (eq + 52) with 0 by lia. lia.
    - rewrite iter_xO_value. f_equal. f_equal. lia. }
  assert (P : 1 <= 2 ^ (eq + 52)).
  { change 1 with (2 ^ 0) at 1. apply Z.pow_le_mono_r; lia. }
  assert (P2 : eq <> -52 -> 2 <= 2 ^ (eq + 52)).
  { intros. change 2 with (2 ^ 1) at 1. apply Z.pow_le_mono_r; lia. }
  assert (A : 2 ^ 52 < Zpos (fst (shl_align mq eq (-52))) < 2 ^ (eq + 105)).
  { rewrite V. replace (eq + 105) with (53 + (eq + 52)) by lia.
    rewrite (Z.pow_add_r 2 53 (eq + 52)) by lia.
    destruct H as [[-> H]|[He H]].
    - change (2 ^ (-52 + 52)) with 1. lia.
    - specialize (P2 ltac:(lia)). nia. }
  change (2 ^ 52) with 4503599627370496 in A.
  destruct (4503599627370496 - Zpos (fst (shl_align mq eq (-52)))) as [|p|p] eqn:E; try lia.
  cbn [binary_normalize].
  pose proof (binary_round_finite true p (-52) (eq + 105)) as F.
  destruct (binary_round_nonzero true p (-52)) as [N|N]; [lia|exact N|].
  rewrite N in F. discriminate F; lia.
Qed.

(** *** The sign of a quotient *)

Lemma div_core_nonneg m1 e1 m2 e2 :
  0 <= fst (fst (SFdiv_core_binary prec emax (Zpos m1) e1 (Zpos m2) e2)).
Proof.
  unfold SFdiv_core_binary.
  set (s := Zdigits2 (Zpos m1) + e1 - (Zdigits2 (Zpos m2) + e2)).
  set (e' := Z.min (fexp prec emax s) (e1 - e2)).
  set (m' := match e1 - e2 - e' with
             | 0 => Zpos m1
             | Zpos _ => Z.shiftl (Zpos m1) (e1 - e2 - e')
             | Zneg _ => 0
             end).
  assert (M : 0 <= m').
  { unfold m'. destruct (e1 - e2 - e') eqn:E; try lia.
    apply Z.shiftl_nonneg. lia. }
  pose proof (Z_div_mod m' (Zpos m2) ltac:(lia)) as DM.
  destruct (Z.div_eucl m' (Zpos m2)) as [q r]. cbn [fst].
  destruct DM as [DM Hr]. nia.
Qed.

(** A positive dividend over a negative divisor carries the sign bit; only
    infinity over infinity does not. *)
Lemma div_positive_by_negative amp d :
  SFltb (float_of_int 0) amp = true ->
  (exists m e, d = S754_finite true m e) \/
  (d = S754_infinity true /\ is_finite amp = true) ->
  exists es, float_div amp d = Ok es /\ has_sign true es.
Proof.
  intros Hpos Hd.
  destruct amp as [sa|sa| |sa ma ea]; try discriminate Hpos;
    destruct sa; try discriminate Hpos.
  - destruct Hd as [(m & e & ->)|[_ F]]; [|discriminate F].
    unfold float_div; cbn [is_zero]. eexists. split; [reflexivity|]. constructor.
  - unfold float_div. destruct Hd as [(m & e & ->)|[-> _]]; cbn [is_zero].
    + eexists. split; [reflexivity|].
      unfold SFdiv. pose proof (div_core_nonneg ma ea m e) as N.
      destruct (SFdiv_core_binary prec emax (Zpos ma) ea (Zpos m) e) as [[mz ez] lz].
      cbn [fst] in N. cbn [xorb]. now apply binary_round_aux_sign.
    + eexists. split; [reflexivity|]. constructor.
Qed.

Lemma negative_le_limit es props k :
  dict_get material_props k = Some props ->
  has_sign true es ->
  float_le es (float_of_int (endurance_limit props)) = true.
Proof.
  intros Hp Hs.
  destruct (material_props_cases _ _ Hp) as [[_ ->]|[_ ->]];
    destruct Hs; reflexivity.
Qed.

(** The Goodman correction beyond the coefficient: the quotient
    [mean_stress / coefficient] is above 1, the divisor [1 - quotient] is
    negative and not zero, and the equivalent stress carries the sign bit. *)
Lemma goodman_over_mean_stress data props k :
  dict_get material_props k = Some props ->
  SFltb (float_of_int 0) (stress_amplitude data) = true ->
  is_binary64 (mean_stress data) = true ->
  SFltb (float_of_int (fatigue_strength_coeff props)) (mean_stress data) = true ->
  is_finite (stress_amplitude data) = true \/ is_finite (mean_stress data) = true ->
  exists es, goodman_equivalent_stress data props = Ok es /\ has_sign true es.
Proof.
  intros Hp Hpos Hval Hgt Hfin.
  assert (C : exists mc, coefficient_mantissa mc /\
                float_of_int (fatigue_strength_coeff props) = S754_finite false mc (-43)).
  { destruct (material_props_cases _ _ Hp) as [[_ ->]|[_ ->]]; eexists;
      (split; [|reflexivity]); [left|right]; reflexivity. }
  destruct C as (mc & Hmc & Ec). rewrite Ec in Hgt.
  unfold goodman_equivalent_stress. rewrite Ec.
  unfold float_div at 1. cbn [is_zero bind].
  destruct (mean_stress data) as [sm|sm| |sm mm em]; try discriminate.
  - destruct sm; [discriminate|].
    apply div_positive_by_negative; [exact Hpos|]. right. split; [reflexivity|].
    destruct Hfin as [F|F]; [exact F|discriminate F].
  - destruct sm; [discriminate|].
    destruct (div_by_coefficient_above_one mc mm em Hmc Hval Hgt)
      as (mq & eq & -> & Hm & He & Hq).
    apply div_positive_by_negative; [exact Hpos|]. left.
    now apply one_minus_above_one.
Qed.

(** *** What a returned result was computed from *)

Lemma analyze_fatigue_returns pow3 data r :
  analyze_fatigue pow3 data = Ok r ->
  exists props es n margin sf,
    dict_get material_props (lower (material data)) = Some props /\
    goodman_equivalent_stress data props = Ok es /\
    sn_cycles_to_failure pow3 props es = Ok n /\
    int_truediv n (cycles data) = Ok margin /\
    safety_factor data = Some sf /\
    r = {| cycles_to_failure := n;
           safety_margin := margin;
           is_safe := float_ge margin sf;
           analysis_method := method_label |}.
Proof.
  unfold analyze_fatigue.
  destruct (dict_get material_props (lower (material data))) as [props|] eqn:Hp;
    [|discriminate].
  destruct (goodman_equivalent_stress data props) as [es|] eqn:Hes; cbn [bind];
    [|discriminate].
  destruct (sn_cycles_to_failure pow3 props es) as [n|] eqn:Hn; cbn [bind];
    [|discriminate].
  destruct (int_truediv n (cycles data)) as [margin|] eqn:Hm; cbn [bind];
    [|discriminate].
  destruct (safety_factor data) as [sf|] eqn:Hsf; cbn [bind float_ge_optional];
    [|discriminate].
  intros [= <-]. exists props, es, n, margin, sf. auto 10.
Qed.

(** *** [int(x)] truncates toward zero *)

Lemma Qtrunc_inject_Z z : Qtrunc (inject_Z z) = z.
Proof.
  unfold Qtrunc. destruct (Qle_bool 0 (inject_Z z)).
  - apply Qfloor_Z.
  - apply Qceiling_Z.
Qed.

Lemma int_of_float_truncates x n :
  int_of_float x = Ok n -> n = Qtrunc (SF2Q x).
Proof.
  destruct x as [s|s| |s m e]; simpl; try discriminate.
  - intros [= <-]. reflexivity.
  - intros [= <-]. destruct e as [|p|p].
    + rewrite Z.shiftl_0_r, Z.mul_1_r, Qtrunc_inject_Z.
      destruct s; reflexivity.
    + rewrite Z.shiftl_mul_pow2 by lia. rewrite Qtrunc_inject_Z.
      destruct s; [rewrite <- Z.mul_opp_l|]; reflexivity.
    + change (Z.shiftl (Z.pos m) (Z.neg p)) with (Z.shiftr (Z.pos m) (Z.pos p)).
      rewrite Z.shiftr_div_pow2 by lia.
      unfold Qtrunc, Qceiling, Qfloor, Qle_bool, Qopp; simpl Qnum; simpl Qden.
      rewrite Pos2Z.inj_pow.
      destruct s; simpl; reflexivity.
Qed.

Example truncation_is_not_rounding :
  int_of_float (S754_finite false 7 (-2)) = Ok 1 /\
  int_of_float (S754_finite true 7 (-2)) = Ok (-1).
Proof. split; reflexivity. Qed.

(** ** The properties of the specification *)

(** *** C1: the aluminum case *)

Lemma pow3_rounded_accurate : accurate_pow3 pow3_rounded.
Proof.
  intros x Hx. unfold pow3_rounded.
  destruct (cube_rounded x) as [s|s| |s m e]; try discriminate;
    eexists; (split; [reflexivity|]); right; left; reflexivity.
Qed.

(** C1 as stated fails: the aluminum case returns 23149 cycles to failure, not
    23120, and a margin of 0.46298, not 0.4624; only the verdict is as
    stated. *)
Lemma aluminum_case_is_not_23120 :
  analyze_fatigue pow3_rounded aluminum_case = Ok aluminum_result /\
  cycles_to_failure aluminum_result <> 23120 /\
  ~ (Qabs (SF2Q (safety_margin aluminum_result) - (4624 # 10000)) < (1 # 10000))%Q.
Proof.
  split; [reflexivity|]. split; [discriminate|].
  intros H. vm_compute in H. discriminate H.
Qed.

(** C1 (amended). For material "aluminum", stress amplitude 200, mean stress
    50, 50000 cycles and the safety factor left out, [analyze_fatigue] returns
    23149 cycles to failure, the margin 23149/50000 = 0.46298 and the verdict
    unsafe, whichever accurate cube the platform computes. *)
Theorem aluminum_case_returns_23149 (pow3 : float -> result float) :
  accurate_pow3 pow3 ->
  analyze_fatigue pow3 aluminum_case = Ok aluminum_result /\
  (Qabs (SF2Q (safety_margin aluminum_result) - (46298 # 100000))
     < (1 # 10000000000000000))%Q.
Proof.
  intros H. split; [|reflexivity].
  assert (E : analyze_fatigue pow3 aluminum_case =
              (n <- (cube <- pow3 aluminum_base ;;
                     int_of_float (float_mul cube (lit 1000))) ;;
               margin <- int_truediv n 50000 ;;
               Ok {| cycles_to_failure := n;
                     safety_margin := margin;
                     is_safe := float_ge margin (lit 2);
                     analysis_method := method_label |})) by reflexivity.
  rewrite E.
  destruct (H aluminum_base eq_refl) as (r & Hr & [Hn|[Hn|Hn]]);
    rewrite Hr, Hn; reflexivity.
Qed.

Lemma aluminum_case_returns_23149_witness :
  analyze_fatigue pow3_rounded aluminum_case = Ok aluminum_result /\
  (Qabs (SF2Q (safety_margin aluminum_result) - (46298 # 100000))
     < (1 # 10000000000000000))%Q.
Proof.
  apply (aluminum_case_returns_23149 pow3_rounded).
  exact pow3_rounded_accurate.
Defined.

(** *** C2 *)

(** C2. When the mean stress equals the fatigue-strength coefficient of the
    resolved material, the divisor of the Goodman correction is 0.0 and the
    evaluation stops there with [ZeroDivisionError('float division by zero')]:
    no result is built and no infinite or NaN value travels further. *)
Theorem mean_stress_at_coefficient_raises
    (pow3 : float -> result float) (data : FatigueInput) (props : MaterialProps) :
  dict_get material_props (lower (material data)) = Some props ->
  SFeqb (mean_stress data) (float_of_int (fatigue_strength_coeff props)) = true ->
  analyze_fatigue pow3 data = Raise (ZeroDivisionError "float division by zero").
Proof.
  intros Hp Hm. unfold analyze_fatigue. rewrite Hp.
  unfold goodman_equivalent_stress.
  destruct (material_props_cases _ _ Hp) as [[_ ->]|[_ ->]];
    apply SFeqb_finite_pos in Hm; rewrite Hm; reflexivity.
Qed.

Lemma mean_stress_at_coefficient_raises_witness :
  analyze_fatigue pow3_rounded singular_zero_cycles_case =
    Raise (ZeroDivisionError "float division by zero").
Proof.
  apply (mean_stress_at_coefficient_raises pow3_rounded singular_zero_cycles_case steel_props);
    reflexivity.
Defined.

(** *** C3 *)

(** C3 as stated fails: with [cycles = 0] on steel and the mean stress at the
    coefficient, the error that comes out is the one of the Goodman correction
    (line 42, as in C2), not the one of the margin's division by [cycles]. *)
Lemma zero_cycles_error_can_be_the_earlier_one :
  cycles singular_zero_cycles_case = 0 /\
  dict_get material_props (lower (material singular_zero_cycles_case)) = Some steel_props /\
  analyze_fatigue pow3_rounded singular_zero_cycles_case =
    Raise (ZeroDivisionError "float division by zero") /\
  analyze_fatigue pow3_rounded singular_zero_cycles_case <>
    Raise (ZeroDivisionError "division by zero").
Proof.
  repeat split; try reflexivity.
  vm_compute. discriminate.
Qed.

(** C3 (amended). With [cycles = 0] and a supported material the evaluation
    never returns a result; whenever the Goodman correction and the life
    estimate both complete, the error is the [ZeroDivisionError('division by
    zero')] of [cycles_to_failure / cycles]; otherwise the error is the one
    of the earlier step: the error of the Goodman correction when that one
    raises, and else the error of the life estimate. *)
Theorem zero_cycles_raises
    (pow3 : float -> result float) (data : FatigueInput) (props : MaterialProps) :
  dict_get material_props (lower (material data)) = Some props ->
  cycles data = 0 ->
  (exists e, analyze_fatigue pow3 data = Raise e) /\
  (forall es n,
      goodman_equivalent_stress data props = Ok es ->
      sn_cycles_to_failure pow3 props es = Ok n ->
      analyze_fatigue pow3 data = Raise (ZeroDivisionError "division by zero")) /\
  (forall e,
      goodman_equivalent_stress data props = Raise e ->
      analyze_fatigue pow3 data = Raise e) /\
  (forall es e,
      goodman_equivalent_stress data props = Ok es ->
      sn_cycles_to_failure pow3 props es = Raise e ->
      analyze_fatigue pow3 data = Raise e).
Proof.
  intros Hp Hc. unfold analyze_fatigue. rewrite Hp, Hc. split; [|split; [|split]].
  - destruct (goodman_equivalent_stress data props) as [es|e]; cbn [bind]; [|now exists e].
    destruct (sn_cycles_to_failure pow3 props es) as [n|e]; cbn [bind]; [|now exists e].
    eexists; reflexivity.
  - intros es n H1 H2. rewrite H1; cbn [bind]. rewrite H2. reflexivity.
  - intros e H1. rewrite H1. reflexivity.
  - intros es e H1 H2. rewrite H1; cbn [bind]. rewrite H2. reflexivity.
Qed.

Lemma zero_cycles_raises_witness :
  (exists e, analyze_fatigue pow3_rounded steel_zero_cycles_case = Raise e) /\
  (forall es n,
      goodman_equivalent_stress steel_zero_cycles_case steel_props = Ok es ->
      sn_cycles_to_failure pow3_rounded steel_props es = Ok n ->
      analyze_fatigue pow3_rounded steel_zero_cycles_case =
        Raise (ZeroDivisionError "division by zero")) /\
  (forall e,
      goodman_equivalent_stress steel_zero_cycles_case steel_props = Raise e ->
      analyze_fatigue pow3_rounded steel_zero_cycles_case = Raise e) /\
  (forall es e,
      goodman_equivalent_stress steel_zero_cycles_case steel_props = Ok es ->
      sn_cycles_to_failure pow3_rounded steel_props es = Raise e ->
      analyze_fatigue pow3_rounded steel_zero_cycles_case = Raise e).
Proof.
  apply (zero_cycles_raises pow3_rounded steel_zero_cycles_case steel_props); reflexivity.
Defined.

(** The earlier step at work: no applied cycle and the mean stress at the
    coefficient; the error of the Goodman correction is the one that comes
    out. *)
Example singular_zero_cycles_run :
  goodman_equivalent_stress singular_zero_cycles_case steel_props =
    Raise (ZeroDivisionError "float division by zero") /\
  analyze_fatigue pow3_rounded singular_zero_cycles_case =
    Raise (ZeroDivisionError "float division by zero").
Proof. split; reflexivity. Qed.

Example steel_zero_cycles_run :
  analyze_fatigue pow3_rounded steel_zero_cycles_case =
    Raise (ZeroDivisionError "division by zero").
Proof. reflexivity. Qed.

(** *** Batches: C4 and C5 *)

Lemma succeeds_or_fails pow3 data : succeeds pow3 data \/ fails pow3 data.
Proof.
  unfold succeeds, fails.
  destruct (analyze_fatigue pow3 data) as [r|e]; [left|right]; eexists; reflexivity.
Qed.

(** A batch that contains a failing case splits at its first failing case. *)
Lemma first_failure pow3 (inputs : list FatigueInput) :
  Exists (fails pow3) inputs ->
  exists before data after e,
    inputs = (before ++ data :: after)%list /\
    Forall (succeeds pow3) before /\
    analyze_fatigue pow3 data = Raise e.
Proof.
  induction inputs as [|d rest IH]; intros H.
  - inversion H.
  - destruct (succeeds_or_fails pow3 d) as [S|[e F]].
    + assert (Hrest : Exists (fails pow3) rest).
      { inversion H as [? ? [e F]|]; subst; [|assumption].
        destruct S as [r S]. congruence. }
      destruct (IH Hrest) as (before & data & after & e & -> & Hb & He).
      exists (d :: before), data, after, e. repeat split; auto.
    + exists [], d, rest, e. repeat split; auto.
Qed.

(** The loop, entered at index [i], on a prefix that succeeds followed by a
    case that raises. *)
Lemma batch_loop_stops pow3 (before : list FatigueInput) :
  forall i results data after e,
    Forall (succeeds pow3) before ->
    analyze_fatigue pow3 data = Raise e ->
    batch_loop pow3 i (before ++ data :: after)%list results =
      Fails (batch_error (i + List.length before + 1) e).
Proof.
  induction before as [|d before IH]; intros i results data after e Hb He; simpl.
  - rewrite He. unfold batch_error. now rewrite Nat.add_0_r.
  - inversion Hb as [|? ? [r Hr] Hb']; subst. rewrite Hr.
    rewrite (IH (S i) _ data after e Hb' He).
    do 2 f_equal. lia.
Qed.

(** The loop on inputs that all succeed appends one result per input. *)
Lemma batch_loop_completes pow3 (inputs : list FatigueInput) :
  forall i results outs,
    Forall2 (fun d r => analyze_fatigue pow3 d = Ok r) inputs outs ->
    batch_loop pow3 i inputs results = Returns (results ++ outs)%list.
Proof.
  induction inputs as [|d inputs IH]; intros i results outs H;
    inversion H as [|? r ? outs' Hd Hrest]; subst; simpl.
  - now rewrite app_nil_r.
  - rewrite Hd, (IH (S i) _ outs' Hrest), <- app_assoc. reflexivity.
Qed.

Lemma all_succeed_results pow3 (inputs : list FatigueInput) :
  Forall (succeeds pow3) inputs ->
  exists outs, Forall2 (fun d r => analyze_fatigue pow3 d = Ok r) inputs outs.
Proof.
  induction 1 as [|d inputs [r Hr] _ [outs IH]].
  - exists []. constructor.
  - exists (r :: outs). now constructor.
Qed.

(** C4. A batch with at least one failing case stops at the first of them: the
    endpoint returns no result list at all, only an HTTP 400 whose detail gives
    the 1-based position of that case and the text of its exception. *)
Theorem batch_fails_at_first_error
    (pow3 : float -> result float) (inputs : list FatigueInput) :
  Exists (fails pow3) inputs ->
  exists before data after e,
    inputs = (before ++ data :: after)%list /\
    Forall (succeeds pow3) before /\
    analyze_fatigue pow3 data = Raise e /\
    run_batch_analysis pow3 inputs =
      Fails {| status_code := 400;
               detail := "Error in dataset " ++ str_nat (List.length before + 1)
                           ++ ": " ++ str_exn e |}.
Proof.
  intros H.
  destruct (first_failure pow3 inputs H) as (before & data & after & e & -> & Hb & He).
  exists before, data, after, e. repeat split; auto.
  unfold run_batch_analysis.
  now rewrite (batch_loop_stops pow3 before 0 [] data after e Hb He).
Qed.

Lemma batch_fails_at_first_error_witness :
  exists before data after e,
    [steel_case; titanium_case; aluminum_case] = (before ++ data :: after)%list /\
    Forall (succeeds pow3_rounded) before /\
    analyze_fatigue pow3_rounded data = Raise e /\
    run_batch_analysis pow3_rounded [steel_case; titanium_case; aluminum_case] =
      Fails {| status_code := 400;
               detail := "Error in dataset " ++ str_nat (List.length before + 1)
                           ++ ": " ++ str_exn e |}.
Proof.
  apply (batch_fails_at_first_error pow3_rounded [steel_case; titanium_case; aluminum_case]).
  apply Exists_cons_tl, Exists_cons_hd.
  eexists. reflexivity.
Defined.

Example batch_second_of_three :
  run_batch_analysis pow3_rounded [steel_case; titanium_case; aluminum_case] =
    Fails {| status_code := 400;
             detail := "Error in dataset 2: Material 'Titanium' not supported" |}.
Proof. reflexivity. Qed.

(** C5. When every case of a batch of N inputs succeeds on its own, the batch
    returns exactly N results, and the i-th result is the result of the
    single-case evaluation of the i-th input. *)
Theorem batch_returns_each_result_in_order
    (pow3 : float -> result float) (inputs : list FatigueInput) :
  Forall (succeeds pow3) inputs ->
  exists outs,
    run_batch_analysis pow3 inputs = Returns outs /\
    List.length outs = List.length inputs /\
    (forall i data, nth_error inputs i = Some data ->
       exists r, nth_error outs i = Some r /\ analyze_fatigue pow3 data = Ok r).
Proof.
  intros H. destruct (all_succeed_results pow3 inputs H) as [outs F].
  exists outs. split; [|split].
  - unfold run_batch_analysis. now rewrite (batch_loop_completes pow3 inputs 0 [] outs F).
  - symmetry. eapply Forall2_length, F.
  - clear H. induction F as [|d r inputs outs Hd F IH]; intros i data Hi.
    + destruct i; discriminate.
    + destruct i as [|i]; simpl in *.
      * injection Hi as <-. now exists r.
      * now apply IH.
Qed.

Lemma batch_returns_each_result_in_order_witness :
  exists outs,
    run_batch_analysis pow3_rounded [steel_case; aluminum_case] = Returns outs /\
    List.length outs = List.length [steel_case; aluminum_case] /\
    (forall i data, nth_error [steel_case; aluminum_case] i = Some data ->
       exists r, nth_error outs i = Some r /\ analyze_fatigue pow3_rounded data = Ok r).
Proof.
  apply (batch_returns_each_result_in_order pow3_rounded [steel_case; aluminum_case]).
  apply Forall_cons; [|apply Forall_cons; [|apply Forall_nil]].
  - exists {| cycles_to_failure := 10000000;
              safety_margin := S754_finite false 7036874417766400 (-46);
              is_safe := true;
              analysis_method := method_label |}.
    vm_compute. reflexivity.
  - exists aluminum_result. vm_compute. reflexivity.
Defined.

(** *** C6 *)

(** C6. In every returned result, if the equivalent stress is at most the
    endurance limit (equality included) the life is the cap 10,000,000;
    otherwise it is [(coefficient / equivalent_stress) ** 3 * 1000] truncated
    toward zero (the cube being the platform's, within one unit of the
    correctly rounded cube when the platform's [pow] is accurate). *)
Theorem life_is_cap_or_truncated_power_law
    (pow3 : float -> result float) (data : FatigueInput) (r : FatigueResult) :
  analyze_fatigue pow3 data = Ok r ->
  exists props es,
    dict_get material_props (lower (material data)) = Some props /\
    goodman_equivalent_stress data props = Ok es /\
    (float_le es (float_of_int (endurance_limit props)) = true ->
       cycles_to_failure r = 10000000) /\
    (SFcompare es (float_of_int (endurance_limit props)) = Some Eq ->
       cycles_to_failure r = 10000000) /\
    (float_le es (float_of_int (endurance_limit props)) = false ->
       exists base cube,
         float_div (float_of_int (fatigue_strength_coeff props)) es = Ok base /\
         pow3 base = Ok cube /\
         (accurate_pow3 pow3 -> is_finite (cube_rounded base) = true ->
          near cube (cube_rounded base)) /\
         cycles_to_failure r = Qtrunc (SF2Q (float_mul cube (float_of_int 1000)))).
Proof.
  intros H.
  destruct (analyze_fatigue_returns pow3 data r H)
    as (props & es & n & margin & sf & Hp & Hes & Hn & _ & _ & ->).
  exists props, es. cbn [cycles_to_failure].
  unfold sn_cycles_to_failure in Hn.
  repeat split; auto.
  - intros Hle. rewrite Hle in Hn. congruence.
  - intros Heq. unfold float_le, SFleb in Hn. rewrite Heq in Hn. congruence.
  - intros Hgt. rewrite Hgt in Hn.
    destruct (float_div (float_of_int (fatigue_strength_coeff props)) es)
      as [base|] eqn:Hb; cbn [bind] in Hn; [|discriminate].
    destruct (pow3 base) as [cube|] eqn:Hc; cbn [bind] in Hn; [|discriminate].
    exists base, cube. repeat split; auto.
    + intros A F. destruct (A base F) as (c & Hc' & N). congruence.
    + now apply int_of_float_truncates.
Qed.

Lemma life_is_cap_or_truncated_power_law_witness :
  exists props es,
    dict_get material_props (lower (material aluminum_case)) = Some props /\
    goodman_equivalent_stress aluminum_case props = Ok es /\
    (float_le es (float_of_int (endurance_limit props)) = true -> 23149 = 10000000) /\
    (SFcompare es (float_of_int (endurance_limit props)) = Some Eq -> 23149 = 10000000) /\
    (float_le es (float_of_int (endurance_limit props)) = false ->
       exists base cube,
         float_div (float_of_int (fatigue_strength_coeff props)) es = Ok base /\
         pow3_rounded base = Ok cube /\
         (accurate_pow3 pow3_rounded -> is_finite (cube_rounded base) = true ->
          near cube (cube_rounded base)) /\
         23149 = Qtrunc (SF2Q (float_mul cube (float_of_int 1000)))).
Proof.
  apply (life_is_cap_or_truncated_power_law pow3_rounded aluminum_case aluminum_result).
  reflexivity.
Defined.

(** At the boundary itself: steel loaded at exactly its endurance limit. *)
Example steel_at_endurance_limit :
  goodman_equivalent_stress (FatigueInput_init (lit 200) (lit 0) 1000 "steel" Omitted)
    steel_props = Ok (lit 200) /\
  analyze_fatigue pow3_rounded (FatigueInput_init (lit 200) (lit 0) 1000 "steel" Omitted) =
    Ok {| cycles_to_failure := 10000000;
          safety_margin := lit 10000;
          is_safe := true;
          analysis_method := method_label |}.
Proof. split; reflexivity. Qed.

(** *** C7 *)

(** C7. In every returned result the safety margin is the float quotient of
    the two integers [cycles_to_failure] and [cycles] (true division, so
    [cycles] is not zero; the float is within two units in the last place of
    the exact quotient, with its sign), and the verdict is
    [safety_margin >= safety_factor]; an input built without a safety factor
    carries 2.0. *)
Theorem margin_is_true_division_and_verdict_compares
    (pow3 : float -> result float) (data : FatigueInput) (r : FatigueResult) :
  analyze_fatigue pow3 data = Ok r ->
  (cycles data <> 0 /\
   safety_margin r =
     SFdiv prec emax (exact_int (cycles_to_failure r)) (exact_int (cycles data)) /\
   within_two_ulps (safety_margin r) (cycles_to_failure r) (cycles data) /\
   exists sf, safety_factor data = Some sf /\
              is_safe r = float_ge (safety_margin r) sf) /\
  (forall a m n name,
     safety_factor (FatigueInput_init a m n name Omitted) =
       Some (S754_finite false 4503599627370496 (-51))).
Proof.
  intros H. split; [|reflexivity].
  destruct (analyze_fatigue_returns pow3 data r H)
    as (props & es & n & margin & sf & _ & _ & _ & Hm & Hsf & ->).
  cbn [cycles_to_failure safety_margin is_safe].
  pose proof (int_truediv_within_two_ulps _ _ _ Hm) as W.
  unfold int_truediv in Hm.
  destruct (Z.eqb_spec (cycles data) 0) as [|Hc]; [discriminate|].
  repeat split; auto.
  - destruct (SFdiv prec emax (exact_int n) (exact_int (cycles data)));
      congruence.
  - now exists sf.
Qed.

Lemma margin_is_true_division_and_verdict_compares_witness :
  (cycles aluminum_case <> 0 /\
   S754_finite false 8340306221919969 (-54) =
     SFdiv prec emax (exact_int 23149) (exact_int (cycles aluminum_case)) /\
   within_two_ulps (S754_finite false 8340306221919969 (-54)) 23149
     (cycles aluminum_case) /\
   exists sf, safety_factor aluminum_case = Some sf /\
              false = float_ge (S754_finite false 8340306221919969 (-54)) sf) /\
  (forall a m n name,
     safety_factor (FatigueInput_init a m n name Omitted) =
       Some (S754_finite false 4503599627370496 (-51))).
Proof.
  apply (margin_is_true_division_and_verdict_compares pow3_rounded aluminum_case
           aluminum_result).
  reflexivity.
Defined.

(** The margin of the aluminum case is a fraction, 23149/50000 up to the
    rounding of binary64, where an integer division would give 0. *)
Example aluminum_margin_value :
  (Qabs (SF2Q (S754_finite false 8340306221919969 (-54)) - (23149 # 50000))
     < (1 # 10000000000000000))%Q /\
  23149 / 50000 = 0.
Proof. split; reflexivity. Qed.

(** *** C8: the case of the material identifier *)

Lemma lower_char_swapcase c : lower_char (swapcase_char c) = lower_char c.
Proof. destruct c as [[] [] [] [] [] [] [] []]; reflexivity. Qed.

Lemma lower_case_variant s t : case_variant s t -> lower t = lower s.
Proof.
  induction 1 as [|c s t _ IH|c s t _ IH]; simpl.
  - reflexivity.
  - now rewrite IH.
  - now rewrite IH, lower_char_swapcase.
Qed.

Lemma case_variant_refl s : case_variant s s.
Proof. induction s; constructor; assumption. Qed.

Lemma steel_upper : case_variant "steel" "STEEL".
Proof.
  exact (cv_swap "s" _ _ (cv_swap "t" _ _ (cv_swap "e" _ _
          (cv_swap "e" _ _ (cv_swap "l" _ _ cv_end))))).
Qed.

Example steel_spellings :
  case_variant "steel" "STEEL" /\ case_variant "steel" "Steel" /\
  dict_get material_props (lower "STEEL") = Some steel_props /\
  dict_get material_props (lower "Steel") = Some steel_props /\
  dict_get material_props (lower "steel") = Some steel_props.
Proof.
  repeat split.
  - exact steel_upper.
  - apply (cv_swap "s"); apply case_variant_refl.
Qed.

(** C8. Changing the case of letters of the material identifier changes
    neither the properties it resolves to nor the result: with the other
    fields equal, one spelling yields a result exactly when the other does,
    the same one, and on a supported material the two evaluations coincide
    altogether. *)
Theorem material_lookup_ignores_case
    (pow3 : float -> result float) (data : FatigueInput) (name : string) :
  case_variant (material data) name ->
  dict_get material_props (lower name) =
    dict_get material_props (lower (material data)) /\
  (forall r, analyze_fatigue pow3 (with_material data name) = Ok r <->
             analyze_fatigue pow3 data = Ok r) /\
  (In (lower (material data)) (map fst material_props) ->
   analyze_fatigue pow3 (with_material data name) = analyze_fatigue pow3 data).
Proof.
  intros H. apply lower_case_variant in H.
  assert (E : forall props,
             dict_get material_props (lower (material data)) = Some props ->
             analyze_fatigue pow3 (with_material data name) = analyze_fatigue pow3 data).
  { intros props Hp. unfold analyze_fatigue. cbn [material with_material].
    rewrite H, Hp. reflexivity. }
  split; [now rewrite H|split].
  - intros r.
    destruct (dict_get material_props (lower (material data))) as [props|] eqn:Hp.
    + now rewrite (E props eq_refl).
    + unfold analyze_fatigue. cbn [material with_material]. rewrite H, Hp.
      split; discriminate.
  - intros Hin.
    destruct (dict_get material_props (lower (material data))) as [props|] eqn:Hp.
    + now apply (E props).
    + apply dict_get_None in Hp. contradiction.
Qed.

Lemma material_lookup_ignores_case_witness :
  dict_get material_props (lower "STEEL") =
    dict_get material_props (lower (material steel_case)) /\
  (forall r, analyze_fatigue pow3_rounded (with_material steel_case "STEEL") = Ok r <->
             analyze_fatigue pow3_rounded steel_case = Ok r) /\
  (In (lower (material steel_case)) (map fst material_props) ->
   analyze_fatigue pow3_rounded (with_material steel_case "STEEL") =
     analyze_fatigue pow3_rounded steel_case).
Proof.
  apply (material_lookup_ignores_case pow3_rounded steel_case "STEEL").
  exact steel_upper.
Defined.

(** *** C9 *)

(** C9. When the lower-cased material identifier is not a key of the property
    table, [analyze_fatigue] raises a [ValueError] whose message quotes the
    identifier exactly as the caller wrote it (not its lower-cased form). *)
Theorem unsupported_material_names_original
    (pow3 : float -> result float) (data : FatigueInput) :
  ~ In (lower (material data)) (map fst material_props) ->
  analyze_fatigue pow3 data =
    Raise (ValueError ("Material '" ++ material data ++ "' not supported")).
Proof.
  intros H. apply dict_get_None in H.
  unfold analyze_fatigue. now rewrite H.
Qed.

Lemma unsupported_material_names_original_witness :
  analyze_fatigue pow3_rounded titanium_case =
    Raise (ValueError "Material 'Titanium' not supported").
Proof.
  apply (unsupported_material_names_original pow3_rounded titanium_case).
  simpl. intros [H|[H|[]]]; discriminate H.
Defined.

(** *** C10 *)

(** C10 as stated fails: steel with a mean stress of 1000 (above 900) and a
    positive amplitude, but with [cycles = 0], returns nothing; the division
    of the capped life by [cycles] raises. *)
Lemma over_mean_stress_zero_cycles_raises :
  SFltb (float_of_int 0) (stress_amplitude (over_mean_case 0)) = true /\
  dict_get material_props (lower (material (over_mean_case 0))) = Some steel_props /\
  SFltb (float_of_int (fatigue_strength_coeff steel_props))
        (mean_stress (over_mean_case 0)) = true /\
  analyze_fatigue pow3_rounded (over_mean_case 0) =
    Raise (ZeroDivisionError "division by zero").
Proof. repeat split. Qed.

(** C10 (amended). For a supported material, a positive stress amplitude and
    a mean stress strictly above the fatigue-strength coefficient, the two not
    both infinite, the equivalent stress carries the sign bit (it is negative,
    or -0.0), so the life estimate is the cap 10,000,000; and when moreover
    [cycles] is not zero and the safety factor is a number, [analyze_fatigue]
    returns a result with [cycles_to_failure = 10,000,000]. *)
Theorem over_mean_stress_is_infinite_life
    (pow3 : float -> result float) (data : FatigueInput) (props : MaterialProps) :
  dict_get material_props (lower (material data)) = Some props ->
  SFltb (float_of_int 0) (stress_amplitude data) = true ->
  is_binary64 (mean_stress data) = true ->
  SFltb (float_of_int (fatigue_strength_coeff props)) (mean_stress data) = true ->
  is_finite (stress_amplitude data) = true \/ is_finite (mean_stress data) = true ->
  exists es,
    goodman_equivalent_stress data props = Ok es /\
    has_sign true es /\
    sn_cycles_to_failure pow3 props es = Ok 10000000 /\
    (forall sf, cycles data <> 0 -> safety_factor data = Some sf ->
       analyze_fatigue pow3 data =
         Ok {| cycles_to_failure := 10000000;
               safety_margin :=
                 SFdiv prec emax (exact_int 10000000) (exact_int (cycles data));
               is_safe :=
                 float_ge (SFdiv prec emax (exact_int 10000000)
                             (exact_int (cycles data))) sf;
               analysis_method := method_label |}).
Proof.
  intros Hp Hpos Hval Hgt Hfin.
  destruct (goodman_over_mean_stress data props _ Hp Hpos Hval Hgt Hfin)
    as (es & Hes & Hs).
  assert (Hn : sn_cycles_to_failure pow3 props es = Ok 10000000).
  { unfold sn_cycles_to_failure.
    now rewrite (negative_le_limit es props _ Hp Hs). }
  exists es. repeat (split; [assumption|]).
  intros sf Hc Hsf.
  unfold analyze_fatigue. rewrite Hp, Hes. cbn [bind].
  rewrite Hn. cbn [bind].
  rewrite (cap_truediv (cycles data) Hc). cbn [bind].
  rewrite Hsf. reflexivity.
Qed.

Lemma over_mean_stress_is_infinite_life_witness :
  exists es,
    goodman_equivalent_stress (over_mean_case 1000) steel_props = Ok es /\
    has_sign true es /\
    sn_cycles_to_failure pow3_rounded steel_props es = Ok 10000000 /\
    (forall sf, cycles (over_mean_case 1000) <> 0 ->
       safety_factor (over_mean_case 1000) = Some sf ->
       analyze_fatigue pow3_rounded (over_mean_case 1000) =
         Ok {| cycles_to_failure := 10000000;
               safety_margin :=
                 SFdiv prec emax (exact_int 10000000)
                   (exact_int (cycles (over_mean_case 1000)));
               is_safe :=
                 float_ge (SFdiv prec emax (exact_int 10000000)
                             (exact_int (cycles (over_mean_case 1000)))) sf;
               analysis_method := method_label |}).
Proof.
  apply (over_mean_stress_is_infinite_life pow3_rounded (over_mean_case 1000)
           steel_props);
    try reflexivity.
  left. reflexivity.
Defined.

(** Both infinite: the equivalent stress is NaN, which is not below the
    endurance limit, and [int()] raises on it. *)
Example infinite_amplitude_and_mean :
  analyze_fatigue pow3_rounded
    (FatigueInput_init (S754_infinity false) (S754_infinity false) 1000 "steel" Omitted) =
    Raise (ValueError "cannot convert float NaN to integer").
Proof. reflexivity. Qed.

Example over_mean_stress_run :
  analyze_fatigue pow3_rounded (over_mean_case 1000) =
    Ok {| cycles_to_failure := 10000000;
          safety_margin := lit 10000;
          is_safe := true;
          analysis_method := method_label |}.
Proof. reflexivity. Qed.

(** ** Further properties of the code *)

(** *** The batch endpoint as a whole *)

(** The loop over a concatenation runs the first part, then the second part
    from where the first stopped. *)
Lemma batch_loop_app pow3 (xs ys : list FatigueInput) :
  forall i results,
    batch_loop pow3 i (xs ++ ys)%list results =
      match batch_loop pow3 i xs results with
      | Returns rs => batch_loop pow3 (i + List.length xs) ys rs
      | Fails e => Fails e
      end.
Proof.
  induction xs as [|d xs IH]; intros i results; simpl.
  - now rewrite Nat.add_0_r.
  - destruct (analyze_fatigue pow3 d) as [r|e]; [|reflexivity].
    rewrite IH. replace (S i + List.length xs)%nat with (i + S (List.length xs))%nat by lia.
    reflexivity.
Qed.

Lemma batch_loop_returns pow3 (inputs : list FatigueInput) :
  forall i results out,
    batch_loop pow3 i inputs results = Returns out ->
    exists outs, out = (results ++ outs)%list /\
                 Forall2 (fun d r => analyze_fatigue pow3 d = Ok r) inputs outs.
Proof.
  induction inputs as [|d inputs IH]; intros i results out H; simpl in H.
  - injection H as <-. exists []. split; [now rewrite app_nil_r|constructor].
  - destruct (analyze_fatigue pow3 d) as [r|e] eqn:Hd; [|discriminate].
    destruct (IH _ _ _ H) as (outs & -> & F).
    exists (r :: outs). split; [now rewrite <- app_assoc|now constructor].
Qed.

Lemma batch_loop_fails_status pow3 (inputs : list FatigueInput) :
  forall i results e,
    batch_loop pow3 i inputs results = Fails e -> status_code e = 400.
Proof.
  induction inputs as [|d inputs IH]; intros i results e H; simpl in H.
  - discriminate.
  - destruct (analyze_fatigue pow3 d) as [r|ex]; [now apply IH in H|].
    now injection H as <-.
Qed.

Lemma batch_loop_fails pow3 (inputs : list FatigueInput) :
  forall i results e,
    batch_loop pow3 i inputs results = Fails e ->
    exists before data after ex,
      inputs = (before ++ data :: after)%list /\
      Forall (succeeds pow3) before /\
      analyze_fatigue pow3 data = Raise ex /\
      e = batch_error (i + List.length before + 1) ex.
Proof.
  induction inputs as [|d inputs IH]; intros i results e H; simpl in H.
  - discriminate.
  - destruct (analyze_fatigue pow3 d) as [r|ex] eqn:Hd.
    + destruct (IH _ _ _ H) as (before & data & after & ex & -> & Hb & He & ->).
      exists (d :: before), data, after, ex. repeat split; auto.
      * constructor; [now exists r|assumption].
      * simpl. do 2 f_equal. lia.
    + injection H as <-. exists [], d, inputs, ex. repeat split; auto.
      simpl. now rewrite Nat.add_0_r.
Qed.

Lemma batch_returns_spec pow3 (inputs : list FatigueInput) (outs : list FatigueResult) :
  run_batch_analysis pow3 inputs = Returns outs <->
  Forall2 (fun d r => analyze_fatigue pow3 d = Ok r) inputs outs.
Proof.
  unfold run_batch_analysis. split.
  - intros H. destruct (batch_loop_returns pow3 inputs 0%nat [] outs H) as (o & -> & F).
    exact F.
  - intros F. now rewrite (batch_loop_completes pow3 inputs 0%nat [] outs F).
Qed.

Lemma single_analyses_return pow3 (inputs : list FatigueInput) (outs : list FatigueResult) :
  Forall2 (fun d r => analyze_fatigue pow3 d = Ok r) inputs outs ->
  map (run_fatigue_analysis pow3) inputs = map Returns outs.
Proof.
  induction 1 as [|d r inputs outs Hd _ IH]; [reflexivity|].
  simpl. unfold run_fatigue_analysis at 1. now rewrite Hd, IH.
Qed.

(** X1. [run_batch_analysis] returns a list exactly when every case of the
    batch succeeds on its own, and the list it returns is then, element by
    element and in order, the results of [analyze_fatigue]: nothing is
    dropped, added or reordered. *)
Theorem batch_returns_exactly_when_all_succeed
    (pow3 : float -> result float) (inputs : list FatigueInput) :
  (forall outs,
     run_batch_analysis pow3 inputs = Returns outs <->
     Forall2 (fun d r => analyze_fatigue pow3 d = Ok r) inputs outs) /\
  (forall outs,
     run_batch_analysis pow3 inputs = Returns outs ->
     List.length outs = List.length inputs) /\
  ((exists outs, run_batch_analysis pow3 inputs = Returns outs) <->
   Forall (succeeds pow3) inputs).
Proof.
  split; [|split].
  - intros outs. apply batch_returns_spec.
  - intros outs H. apply batch_returns_spec in H. symmetry. eapply Forall2_length, H.
  - split.
    + intros [outs H]. apply batch_returns_spec in H.
      induction H as [|d r l outs Hd _ IH]; constructor; [now exists r|assumption].
    + intros A. destruct (all_succeed_results pow3 inputs A) as [outs F].
      exists outs. now apply batch_returns_spec.
Qed.

(** X2. A batch that fails keeps failing, with the same response, whatever
    cases are appended to it: the cases after the first failing one are never
    looked at. *)
Theorem batch_failure_ignores_what_follows
    (pow3 : float -> result float) (xs ys : list FatigueInput) (e : HTTPException) :
  run_batch_analysis pow3 xs = Fails e ->
  run_batch_analysis pow3 (xs ++ ys)%list = Fails e.
Proof.
  unfold run_batch_analysis. intros H. now rewrite batch_loop_app, H.
Qed.

Lemma batch_failure_ignores_what_follows_witness :
  run_batch_analysis pow3_rounded ([steel_case; titanium_case] ++ [aluminum_case])%list =
    Fails (batch_error 2 (ValueError "Material 'Titanium' not supported")).
Proof.
  apply (batch_failure_ignores_what_follows pow3_rounded [steel_case; titanium_case]
           [aluminum_case]).
  vm_compute. reflexivity.
Defined.

(** X3. Two batches that both return can be sent as one: the batch of the
    concatenation returns the concatenation of the two result lists. A result
    does not depend on the position of its case or on the other cases. *)
Theorem batch_of_concatenation
    (pow3 : float -> result float) (xs ys : list FatigueInput)
    (rs rs' : list FatigueResult) :
  run_batch_analysis pow3 xs = Returns rs ->
  run_batch_analysis pow3 ys = Returns rs' ->
  run_batch_analysis pow3 (xs ++ ys)%list = Returns (rs ++ rs')%list.
Proof.
  rewrite !batch_returns_spec. apply Forall2_app.
Qed.

Lemma batch_of_concatenation_witness :
  run_batch_analysis pow3_rounded ([steel_case] ++ [aluminum_case])%list =
    Returns ([steel_result] ++ [aluminum_result])%list.
Proof.
  apply (batch_of_concatenation pow3_rounded [steel_case] [aluminum_case]
           [steel_result] [aluminum_result]);
    vm_compute; reflexivity.
Defined.

(** X4. Whatever exception the analysis raises, and wherever in a batch, the
    failure response of either endpoint carries the status code 400. *)
Theorem endpoints_fail_with_400
    (pow3 : float -> result float) (data : FatigueInput)
    (inputs : list FatigueInput) (e : HTTPException) :
  run_fatigue_analysis pow3 data = Fails e \/ run_batch_analysis pow3 inputs = Fails e ->
  status_code e = 400.
Proof.
  intros [H|H].
  - unfold run_fatigue_analysis in H.
    destruct (analyze_fatigue pow3 data); [discriminate|]. now injection H as <-.
  - now apply batch_loop_fails_status in H.
Qed.

Lemma endpoints_fail_with_400_witness :
  status_code (batch_error 2 (ValueError "Material 'Titanium' not supported")) = 400.
Proof.
  apply (endpoints_fail_with_400 pow3_rounded steel_case
           [steel_case; titanium_case; aluminum_case]).
  right. vm_compute. reflexivity.
Defined.

(** X5. The batch endpoint agrees with the single-case endpoint. A batch that
    returns gives the list of what [POST /analyze] returns for each case. A
    batch that fails does so at a case on which [POST /analyze] fails too,
    after cases on which it returns, with the same status code and with the
    detail of the single failure behind ["Error in dataset <position>: "]. *)
Theorem batch_agrees_with_single_analysis
    (pow3 : float -> result float) (inputs : list FatigueInput) :
  match run_batch_analysis pow3 inputs with
  | Returns outs =>
      map (run_fatigue_analysis pow3) inputs = map Returns outs
  | Fails e =>
      exists before data after e1,
        inputs = (before ++ data :: after)%list /\
        (exists rs, map (run_fatigue_analysis pow3) before = map Returns rs) /\
        run_fatigue_analysis pow3 data = Fails e1 /\
        e = {| status_code := status_code e1;
               detail := "Error in dataset " ++ str_nat (List.length before + 1)
                           ++ ": " ++ detail e1 |}
  end.
Proof.
  destruct (run_batch_analysis pow3 inputs) as [outs|e] eqn:H.
  - apply batch_returns_spec in H. now apply single_analyses_return.
  - destruct (batch_loop_fails pow3 inputs 0%nat [] e H)
      as (before & data & after & ex & -> & Hb & He & ->).
    exists before, data, after, {| status_code := 400; detail := str_exn ex |}.
    split; [reflexivity|]. split; [|split].
    + destruct (all_succeed_results pow3 before Hb) as [rs F].
      exists rs. now apply single_analyses_return.
    + unfold run_fatigue_analysis. now rewrite He.
    + reflexivity.
Qed.

(** *** A mean stress of zero *)

(** The tail of a rounding leaves a canonical mantissa as it is. *)
Lemma round_tail_canonical s m e :
  bounded prec emax m e = true ->
  round_tail s (Zpos m) e = S754_finite s m e.
Proof.
  intros Hb. unfold bounded, canonical_mantissa in Hb.
  apply andb_prop in Hb. destruct Hb as [Hcan Hmax].
  apply Z.eqb_eq in Hcan.
  unfold round_tail.
  destruct (shr_fexp_facts (Zpos m) e loc_Exact) as [V E]; [lia|].
  destruct (shr_fexp prec emax (Zpos m) e loc_Exact) as [mrs2 e2].
  simpl fst in V; simpl snd in E. simpl Zdigits2 in V, E.
  rewrite Hcan in V, E. replace (Z.max 0 (e - e)) with 0 in V, E by lia.
  rewrite Z.div_1_r in V. rewrite V.
  replace e2 with e by lia. now rewrite Hmax.
Qed.

(** Dividing a binary64 value by 1.0 gives it back. *)
Lemma div_by_one x :
  is_binary64 x = true -> SFdiv prec emax x (float_of_int 1) = x.
Proof.
  change (float_of_int 1) with (S754_finite false 4503599627370496 (-52)).
  destruct x as [s|s| |s m e]; intros Hv; simpl in Hv;
    try (destruct s; reflexivity); try reflexivity.
  assert (Hb := Hv).
  unfold bounded, canonical_mantissa in Hb.
  apply andb_prop in Hb. destruct Hb as [Hcan Hmax].
  apply Z.eqb_eq in Hcan. apply Z.leb_le in Hmax. rewrite fexp64 in Hcan.
  change (emax - prec) with 971 in Hmax.
  pose proof (digits2_pos_bounds m) as Bm.
  set (d := Zpos (digits2_pos m)) in *.
  assert (Hd : 0 < d) by (unfold d; lia).
  unfold SFdiv, SFdiv_core_binary.
  change (Zdigits2 (Zpos 4503599627370496)) with 53. simpl Zdigits2. fold d.
  rewrite fexp64. replace (xorb s false) with s by (destruct s; reflexivity).
  destruct (Z.eq_dec e (-1074)) as [->|He].
  - (* the lowest exponent: the quotient is the mantissa itself *)
    replace (Z.min (Z.max (d + -1074 - (53 + -52) - 53) (-1074)) (-1074 - -52))
      with (-1074) by lia.
    change (-1074 - -52 - -1074) with 52.
    rewrite Z.shiftl_mul_pow2 by lia.
    pose proof (Z_div_mod (Zpos m * 2 ^ 52) 4503599627370496 ltac:(lia)) as DM.
    destruct (Z.div_eucl (Zpos m * 2 ^ 52) 4503599627370496) as [q r].
    change (2 ^ 52) with 4503599627370496 in DM.
    assert (q = Zpos m /\ r = 0) as [-> ->] by lia.
    change (new_location 4503599627370496 0) with loc_Exact.
    rewrite binary_round_aux_tail. unfold shr_fexp. simpl Zdigits2. fold d.
    rewrite fexp64.
    replace (Z.max (d + -1074 - 53) (-1074) - -1074) with 0 by lia.
    cbn [shr shr_record_of_loc shr_m loc_of_shr_record round_nearest_even].
    now apply round_tail_canonical.
  - (* a normal number: the quotient is twice the mantissa, one bit too long *)
    assert (Hd53 : d = 53) by lia. rewrite Hd53 in Bm.
    change (2 ^ (53 - 1)) with 4503599627370496 in Bm.
    change (2 ^ 53) with 9007199254740992 in Bm.
    assert (B2 : 2 ^ (54 - 1) <= Zpos m~0 < 2 ^ 54).
    { change (2 ^ (54 - 1)) with 9007199254740992.
      change (2 ^ 54) with 18014398509481984.
      change (Zpos m~0) with (2 * Zpos m). lia. }
    replace (Z.min (Z.max (d + e - (53 + -52) - 53) (-1074)) (e - -52))
      with (e - 1) by lia.
    replace (e - -52 - (e - 1)) with 53 by lia.
    rewrite Z.shiftl_mul_pow2 by lia.
    pose proof (Z_div_mod (Zpos m * 2 ^ 53) 4503599627370496 ltac:(lia)) as DM.
    destruct (Z.div_eucl (Zpos m * 2 ^ 53) 4503599627370496) as [q r].
    change (2 ^ 53) with 9007199254740992 in DM.
    assert (q = Zpos m~0 /\ r = 0) as [-> ->] by lia.
    change (new_location 4503599627370496 0) with loc_Exact.
    rewrite binary_round_aux_tail. unfold shr_fexp.
    rewrite (Zdigits2_interval (Zpos m~0) 54 ltac:(lia) B2).
    rewrite fexp64.
    replace (Z.max (54 + (e - 1) - 53) (-1074) - (e - 1)) with 1 by lia.
    cbn [shr iter_pos shr_1 shr_record_of_loc shr_m loc_of_shr_record
         round_nearest_even orb].
    replace (e - 1 + 1) with e by lia.
    now apply round_tail_canonical.
Qed.

Lemma coefficient_is_finite props k :
  dict_get material_props k = Some props ->
  exists mc, float_of_int (fatigue_strength_coeff props) = S754_finite false mc (-43).
Proof.
  intros Hp. destruct (material_props_cases _ _ Hp) as [[_ ->]|[_ ->]];
    eexists; reflexivity.
Qed.

(** With a zero mean stress the Goodman correction changes nothing. *)
Lemma goodman_at_zero_mean (data : FatigueInput) (props : MaterialProps) :
  dict_get material_props (lower (material data)) = Some props ->
  is_zero (mean_stress data) = true ->
  is_binary64 (stress_amplitude data) = true ->
  goodman_equivalent_stress data props = Ok (stress_amplitude data).
Proof.
  intros Hp Hz Hv. destruct (coefficient_is_finite _ _ Hp) as [mc Ec].
  unfold goodman_equivalent_stress. rewrite Ec.
  destruct (mean_stress data) as [s| | |]; try discriminate Hz.
  unfold float_div at 1. cbn [is_zero bind SFdiv float_sub].
  change (SFsub prec emax (float_of_int 1) (S754_zero (xorb s false)))
    with (float_of_int 1).
  unfold float_div. change (is_zero (float_of_int 1)) with false. cbn iota.
  now rewrite div_by_one.
Qed.

(** X6. With a mean stress of zero (0.0 or -0.0) the equivalent stress is the
    stress amplitude itself, bit for bit; and an amplitude at or below the
    endurance limit then gives the capped life. *)
Theorem zero_mean_stress_keeps_amplitude
    (pow3 : float -> result float) (data : FatigueInput) (props : MaterialProps) :
  dict_get material_props (lower (material data)) = Some props ->
  is_zero (mean_stress data) = true ->
  is_binary64 (stress_amplitude data) = true ->
  goodman_equivalent_stress data props = Ok (stress_amplitude data) /\
  (forall sf,
     float_le (stress_amplitude data) (float_of_int (endurance_limit props)) = true ->
     cycles data <> 0 ->
     safety_factor data = Some sf ->
     analyze_fatigue pow3 data =
       Ok {| cycles_to_failure := 10000000;
             safety_margin :=
               SFdiv prec emax (exact_int 10000000) (exact_int (cycles data));
             is_safe :=
               float_ge (SFdiv prec emax (exact_int 10000000)
                           (exact_int (cycles data))) sf;
             analysis_method := method_label |}).
Proof.
  intros Hp Hz Hv.
  pose proof (goodman_at_zero_mean data props Hp Hz Hv) as G.
  split; [exact G|]. intros sf Hle Hc Hsf.
  unfold analyze_fatigue. rewrite Hp, G. cbn [bind].
  unfold sn_cycles_to_failure. rewrite Hle. cbn [bind].
  rewrite (cap_truediv _ Hc). cbn [bind]. now rewrite Hsf.
Qed.

Lemma zero_mean_stress_keeps_amplitude_witness :
  goodman_equivalent_stress steel_case steel_props = Ok (stress_amplitude steel_case) /\
  (forall sf,
     float_le (stress_amplitude steel_case)
       (float_of_int (endurance_limit steel_props)) = true ->
     cycles steel_case <> 0 ->
     safety_factor steel_case = Some sf ->
     analyze_fatigue pow3_rounded steel_case =
       Ok {| cycles_to_failure := 10000000;
             safety_margin :=
               SFdiv prec emax (exact_int 10000000) (exact_int (cycles steel_case));
             is_safe :=
               float_ge (SFdiv prec emax (exact_int 10000000)
                           (exact_int (cycles steel_case))) sf;
             analysis_method := method_label |}).
Proof.
  apply (zero_mean_stress_keeps_amplitude pow3_rounded steel_case steel_props);
    reflexivity.
Defined.

(** *** NaN and null among the inputs *)

Lemma binary_round_sign s m e : has_sign s (binary_round prec emax s m e).
Proof.
  unfold binary_round.
  destruct (shl_align m e (fexp prec emax (Zpos (digits2_pos m) + e))) as [mz ez].
  apply binary_round_aux_sign. lia.
Qed.

Lemma div_by_coefficient_sign x mc :
  is_nan x = false ->
  exists s, has_sign s (SFdiv prec emax x (S754_finite false mc (-43))).
Proof.
  destruct x as [s|s| |s m e]; try discriminate; intros _; cbn [SFdiv].
  - eexists; constructor.
  - eexists; constructor.
  - exists (xorb s false).
    pose proof (div_core_nonneg m e mc (-43)) as N.
    destruct (SFdiv_core_binary prec emax (Zpos m) e (Zpos mc) (-43)) as [[mz ez] lz].
    cbn [fst] in N. now apply binary_round_aux_sign.
Qed.

Lemma one_minus_sign q s :
  has_sign s q -> exists s', has_sign s' (float_sub (float_of_int 1) q).
Proof.
  change (float_of_int 1) with (S754_finite false 4503599627370496 (-52)).
  intros [|m e|]; unfold float_sub; cbn [SFsub].
  - eexists; constructor.
  - unfold binary_normalize.
    destruct (cond_Zopp false (Zpos (fst (shl_align 4503599627370496 (-52) (Z.min (-52) e)))) -
              cond_Zopp s (Zpos (fst (shl_align m e (Z.min (-52) e))))) as [|p|p].
    + eexists; constructor.
    + eexists; apply binary_round_sign.
    + eexists; apply binary_round_sign.
  - eexists; constructor.
Qed.

Lemma goodman_unfolded data props mc :
  float_of_int (fatigue_strength_coeff props) = S754_finite false mc (-43) ->
  goodman_equivalent_stress data props =
    let d := float_sub (float_of_int 1)
               (SFdiv prec emax (mean_stress data) (S754_finite false mc (-43))) in
    if is_zero d then Raise (ZeroDivisionError "float division by zero")
    else Ok (SFdiv prec emax (stress_amplitude data) d).
Proof.
  intros Ec. unfold goodman_equivalent_stress. rewrite Ec. reflexivity.
Qed.

(** X7. A NaN stress amplitude or mean stress never produces a result: the
    analysis stops with the division by zero of the Goodman correction (NaN
    amplitude, mean stress at the coefficient) or else with the [ValueError]
    of [int()] on the NaN that the power law yields ([nan ** 3] being NaN, as
    it is in CPython). *)
Theorem nan_stress_raises
    (pow3 : float -> result float) (data : FatigueInput) (props : MaterialProps) :
  pow3 S754_nan = Ok S754_nan ->
  dict_get material_props (lower (material data)) = Some props ->
  is_nan (stress_amplitude data) = true \/ is_nan (mean_stress data) = true ->
  analyze_fatigue pow3 data = Raise (ZeroDivisionError "float division by zero") \/
  analyze_fatigue pow3 data = Raise (ValueError "cannot convert float NaN to integer").
Proof.
  intros Hpow Hp Hnan. destruct (coefficient_is_finite _ _ Hp) as [mc Ec].
  assert (L : sn_cycles_to_failure pow3 props S754_nan =
              Raise (ValueError "cannot convert float NaN to integer")).
  { unfold sn_cycles_to_failure. cbn [float_le SFleb SFcompare].
    rewrite Ec. unfold float_div. cbn [is_zero SFdiv bind]. rewrite Hpow.
    reflexivity. }
  unfold analyze_fatigue. rewrite Hp, (goodman_unfolded data props mc Ec). cbv zeta.
  set (d := float_sub (float_of_int 1)
              (SFdiv prec emax (mean_stress data) (S754_finite false mc (-43)))).
  destruct (is_zero d) eqn:Zd; [now left|]. right.
  assert (E : SFdiv prec emax (stress_amplitude data) d = S754_nan).
  { destruct Hnan as [Hn|Hn].
    - destruct (stress_amplitude data); try discriminate Hn. reflexivity.
    - unfold d. destruct (mean_stress data); try discriminate Hn.
      cbn [SFdiv float_sub SFsub]. change (float_of_int 1) with
        (S754_finite false 4503599627370496 (-52)). cbn [SFsub].
      destruct (stress_amplitude data); reflexivity. }
  cbn [bind]. rewrite E, L. reflexivity.
Qed.

Lemma nan_stress_raises_witness :
  analyze_fatigue pow3_rounded nan_amplitude_case =
    Raise (ZeroDivisionError "float division by zero") \/
  analyze_fatigue pow3_rounded nan_amplitude_case =
    Raise (ValueError "cannot convert float NaN to integer").
Proof.
  apply (nan_stress_raises pow3_rounded nan_amplitude_case steel_props);
    [reflexivity|reflexivity|left; reflexivity].
Defined.

(** X8. The model accepts an explicit null for [safety_factor]
    ([Optional[float]]), but such an input never produces a result: when the
    life and the margin have been computed, the comparison with [None] raises
    [TypeError]. *)
Theorem null_safety_factor_raises
    (pow3 : float -> result float) (data : FatigueInput) :
  safety_factor data = None ->
  (exists e, analyze_fatigue pow3 data = Raise e) /\
  (forall props es n margin,
     dict_get material_props (lower (material data)) = Some props ->
     goodman_equivalent_stress data props = Ok es ->
     sn_cycles_to_failure pow3 props es = Ok n ->
     int_truediv n (cycles data) = Ok margin ->
     analyze_fatigue pow3 data =
       Raise (TypeError "'>=' not supported between instances of 'float' and 'NoneType'")).
Proof.
  intros Hsf. split.
  - destruct (analyze_fatigue pow3 data) as [r|e] eqn:H; [|now exists e].
    destruct (analyze_fatigue_returns pow3 data r H)
      as (_ & _ & _ & _ & sf & _ & _ & _ & _ & Hs & _). congruence.
  - intros props es n margin Hp Hes Hn Hm.
    unfold analyze_fatigue. rewrite Hp, Hes. cbn [bind]. rewrite Hn. cbn [bind].
    rewrite Hm. cbn [bind]. now rewrite Hsf.
Qed.

Lemma null_safety_factor_raises_witness :
  (exists e, analyze_fatigue pow3_rounded null_factor_case = Raise e) /\
  (forall props es n margin,
     dict_get material_props (lower (material null_factor_case)) = Some props ->
     goodman_equivalent_stress null_factor_case props = Ok es ->
     sn_cycles_to_failure pow3_rounded props es = Ok n ->
     int_truediv n (cycles null_factor_case) = Ok margin ->
     analyze_fatigue pow3_rounded null_factor_case =
       Raise (TypeError "'>=' not supported between instances of 'float' and 'NoneType'")).
Proof.
  apply (null_safety_factor_raises pow3_rounded null_factor_case). reflexivity.
Defined.

(** *** The verdict *)

Ltac split_compare :=
  repeat match goal with
  | H : context [Pos.compare_cont Eq ?x ?y] |- _ =>
      rewrite (Pos.compare_cont_spec x y Eq) in H; cbn [Pos.switch_Eq] in H
  | |- context [Pos.compare_cont Eq ?x ?y] =>
      rewrite (Pos.compare_cont_spec x y Eq); cbn [Pos.switch_Eq]
  end;
  repeat match goal with
  | H : context [Z.compare ?x ?y] |- _ => destruct (Z.compare_spec x y)
  | |- context [Z.compare ?x ?y] => destruct (Z.compare_spec x y)
  | H : context [Pos.compare ?x ?y] |- _ => destruct (Pos.compare_spec x y)
  | |- context [Pos.compare ?x ?y] => destruct (Pos.compare_spec x y)
  end.

Lemma SFleb_trans a b c :
  SFleb a b = true -> SFleb b c = true -> SFleb a c = true.
Proof.
  unfold SFleb, SFcompare.
  destruct a as [sa|sa| |sa ma ea]; destruct b as [sb|sb| |sb mb eb];
    destruct c as [sc|sc| |sc mc ec];
    try destruct sa; try destruct sb; try destruct sc;
    cbn; try discriminate; try reflexivity;
    intros H1 H2; split_compare; cbn in *;
    try discriminate; try reflexivity; subst; lia.
Qed.

(** X9. The safety factor enters the verdict only: with another safety factor
    the life and the margin are the same, and a case that is safe stays safe
    under every smaller or equal safety factor. *)
Theorem lower_safety_factor_keeps_verdict_safe
    (pow3 : float -> result float) (data : FatigueInput) (sf sf' : float)
    (r : FatigueResult) :
  analyze_fatigue pow3 (with_safety_factor data (Some sf)) = Ok r ->
  float_le sf' sf = true ->
  exists r',
    analyze_fatigue pow3 (with_safety_factor data (Some sf')) = Ok r' /\
    cycles_to_failure r' = cycles_to_failure r /\
    safety_margin r' = safety_margin r /\
    (is_safe r = true -> is_safe r' = true).
Proof.
  intros H Hle.
  destruct (analyze_fatigue_returns _ _ _ H)
    as (props & es & n & margin & s & Hp & Hes & Hn & Hm & Hs & ->).
  cbn [material with_safety_factor cycles safety_factor] in Hp, Hm, Hs.
  injection Hs as <-.
  change (goodman_equivalent_stress (with_safety_factor data (Some sf)) props)
    with (goodman_equivalent_stress (with_safety_factor data (Some sf')) props) in Hes.
  eexists. split.
  - unfold analyze_fatigue.
    cbn [material with_safety_factor cycles safety_factor].
    rewrite Hp, Hes. cbn [bind]. rewrite Hn. cbn [bind]. rewrite Hm. reflexivity.
  - cbn [cycles_to_failure safety_margin is_safe]. repeat split.
    unfold float_ge. intros Hsafe. unfold float_le in Hle.
    exact (SFleb_trans _ _ _ Hle Hsafe).
Qed.

Lemma lower_safety_factor_keeps_verdict_safe_witness :
  exists r',
    analyze_fatigue pow3_rounded (with_safety_factor steel_case (Some (lit 1))) = Ok r' /\
    cycles_to_failure r' = cycles_to_failure steel_result /\
    safety_margin r' = safety_margin steel_result /\
    (is_safe steel_result = true -> is_safe r' = true).
Proof.
  apply (lower_safety_factor_keeps_verdict_safe pow3_rounded steel_case (lit 2) (lit 1)
           steel_result);
    vm_compute; reflexivity.
Defined.

(** *** The catalog of materials *)

(** X10. [GET /supported_materials] and the table inside [analyze_fatigue]
    agree: a material identifier can lead to a result exactly when its
    lower-case form is in the list the catalog endpoint returns. *)
Theorem catalog_lists_the_materials_that_can_succeed
    (pow3 : float -> result float) (name : string) :
  In (lower name) get_supported_materials <->
  exists data r, material data = name /\ analyze_fatigue pow3 data = Ok r.
Proof.
  split.
  - intros Hin.
    exists (FatigueInput_init (float_of_int 0) (float_of_int 0) 1 name Omitted).
    assert (E : lower name = "steel" \/ lower name = "aluminum").
    { destruct Hin as [E|[E|[]]]; auto. }
    unfold analyze_fatigue. cbn [material FatigueInput_init].
    destruct E as [-> | ->]; eexists; (split; [reflexivity|]); reflexivity.
  - intros (data & r & <- & H).
    destruct (analyze_fatigue_returns _ _ _ H) as (props & _ & _ & _ & _ & Hp & _).
    destruct (material_props_cases _ _ Hp) as [[-> _]|[-> _]]; simpl; auto.
Qed.


(** *** A quotient below one *)

Local Open Scope Z_scope.

(** Rounding 53 bits without a carry keeps the exponent. *)
Lemma round_no_carry s q e l :
  2 ^ 52 <= q -> q + 1 < 2 ^ 53 -> -1074 <= e <= 970 ->
  exists mq, binary_round_aux prec emax s q e l = S754_finite s mq e /\
             q <= Zpos mq <= q + 1.
Proof.
  intros Hlo Hhi He. rewrite binary_round_aux_tail.
  unfold shr_fexp. rewrite (Zdigits2_interval q 53) by lia.
  rewrite fexp64. replace (Z.max (53 + e - 53) (-1074) - e) with 0 by lia.
  cbn [shr]. rewrite shr_record_of_loc_m, loc_of_shr_record_of_loc.
  pose proof (round_nearest_even_bounds q l) as B.
  destruct (round_finish s (round_nearest_even q l) e) as (mq & eq & -> & C);
    [lia|lia|].
  destruct C as [(C1 & -> & C3)|(C1 & _)]; [|lia].
  exists mq. split; [reflexivity|lia].
Qed.

(** The exponent of a rounded mantissa below [2^k]. *)
Lemma binary_round_aux_exponent s m e l k s' mq eq :
  0 <= k -> 0 <= m < 2 ^ k ->
  binary_round_aux prec emax s m e l = S754_finite s' mq eq ->
  eq <= Z.max (Z.max e (k + e - 52)) (-1074).
Proof.
  intros Hk [Hm0 Hmk]. unfold binary_round_aux.
  destruct (shr_fexp_facts m e l Hm0) as [V1 E1].
  destruct (shr_fexp prec emax m e l) as [mrs1 e1]. simpl fst in V1; simpl snd in E1.
  rewrite fexp64 in V1, E1.
  pose proof (Zdigits2_le m k Hk (conj Hm0 Hmk)) as D.
  assert (Dn : 0 <= Zdigits2 m) by (destruct m; simpl; lia).
  set (n := Z.max 0 (Z.max (Zdigits2 m + e - 53) (-1074) - e)) in *.
  assert (Hn : 0 <= n) by lia.
  assert (P : 0 < 2 ^ n) by (apply Z.pow_pos_nonneg; lia).
  assert (H1 : 0 <= shr_m mrs1) by (rewrite V1; apply Z.div_pos; lia).
  set (k1 := Z.max (k - n) 0).
  assert (B1 : shr_m mrs1 < 2 ^ k1).
  { rewrite V1. destruct (Z.le_gt_cases n k) as [Hnk|Hnk].
    - replace k1 with (k - n) by lia.
      apply Z.div_lt_upper_bound; [lia|].
      rewrite <- Z.pow_add_r by lia. replace (n + (k - n)) with k by lia. lia.
    - replace k1 with 0 by lia. rewrite Z.div_small; [reflexivity|].
      split; [lia|]. apply Z.lt_le_trans with (2 ^ k); [lia|].
      apply Z.pow_le_mono_r; lia. }
  pose proof (round_nearest_even_bounds (shr_m mrs1) (loc_of_shr_record mrs1)) as R.
  set (m1 := round_nearest_even (shr_m mrs1) (loc_of_shr_record mrs1)) in *.
  assert (B2 : 0 <= m1 < 2 ^ (k1 + 1)).
  { split; [lia|]. rewrite Z.pow_add_r, Z.pow_1_r by lia.
    assert (0 < 2 ^ k1) by (apply Z.pow_pos_nonneg; lia). lia. }
  pose proof (Zdigits2_le m1 (k1 + 1) ltac:(lia) B2) as D1.
  destruct (shr_fexp_facts m1 e1 loc_Exact) as [V2 E2]; [lia|].
  destruct (shr_fexp prec emax m1 e1 loc_Exact) as [mrs2 e2]. simpl fst in V2; simpl snd in E2.
  rewrite fexp64 in E2.
  destruct (shr_m mrs2) as [|p|p]; try discriminate.
  destruct (Z.leb e2 (emax - prec)); [|discriminate].
  intros [= _ _ <-]. lia.
Qed.

Lemma shl_align_value mx ex ex' :
  Zpos (fst (shl_align mx ex ex')) = Zpos mx * 2 ^ Z.max 0 (ex - ex').
Proof.
  unfold shl_align. destruct (ex' - ex) as [|p|p] eqn:E; cbn [fst].
  - replace (Z.max 0 (ex - ex')) with 0 by lia. lia.
  - replace (Z.max 0 (ex - ex')) with 0 by lia. lia.
  - rewrite iter_xO_value. f_equal. f_equal. lia.
Qed.

(** [1 - q] is positive when [q], with an exponent of -52 or less, is below
    1. *)
Lemma one_minus_below_one mq eq :
  -1074 <= eq <= -52 -> Zpos mq < 2 ^ (- eq) ->
  has_sign false (float_sub (float_of_int 1) (S754_finite false mq eq)) /\
  is_zero (float_sub (float_of_int 1) (S754_finite false mq eq)) = false.
Proof.
  intros He Hlt.
  change (float_of_int 1) with (S754_finite false 4503599627370496 (-52)).
  unfold float_sub, SFsub.
  replace (Z.min (-52) eq) with eq by lia.
  pose proof (shl_align_value 4503599627370496 (-52) eq) as V1.
  pose proof (shl_align_value mq eq eq) as V2.
  replace (Z.max 0 (-52 - eq)) with (- eq - 52) in V1 by lia.
  replace (Z.max 0 (eq - eq)) with 0 in V2 by lia. rewrite Z.mul_1_r in V2.
  change (Zpos 4503599627370496) with (2 ^ 52) in V1.
  rewrite <- Z.pow_add_r in V1 by lia. replace (52 + (- eq - 52)) with (- eq) in V1 by lia.
  cbn [cond_Zopp]. rewrite V1, V2.
  destruct (2 ^ (- eq) - Zpos mq) as [|p|p] eqn:D; try lia.
  cbn [binary_normalize].
  destruct (binary_round_nonzero false p eq) as [(m' & e' & ->)| ->]; [lia| |];
    split; try reflexivity; constructor.
Qed.

Lemma one_minus_negative mq eq :
  -1074 <= eq ->
  has_sign false (float_sub (float_of_int 1) (S754_finite true mq eq)) /\
  is_zero (float_sub (float_of_int 1) (S754_finite true mq eq)) = false.
Proof.
  intros He.
  change (float_of_int 1) with (S754_finite false 4503599627370496 (-52)).
  unfold float_sub, SFsub. cbn [cond_Zopp].
  set (ez := Z.min (-52) eq).
  set (a := Zpos (fst (shl_align 4503599627370496 (-52) ez))).
  set (b := Zpos (fst (shl_align mq eq ez))).
  assert (D : 0 < a - - b) by (unfold a, b; lia).
  destruct (a - - b) as [|p|p]; try lia.
  cbn [binary_normalize].
  destruct (binary_round_nonzero false p ez) as [(m' & e' & ->)| ->];
    [unfold ez; lia| |]; split; try reflexivity; constructor.
Qed.

(** The exponent of a quotient by a coefficient is never below [emin]. *)
Lemma div_by_coefficient_exponent s mm em mc s' mq eq :
  -1074 <= em ->
  SFdiv prec emax (S754_finite s mm em) (S754_finite false mc (-43)) =
    S754_finite s' mq eq ->
  s' = xorb s false /\ -1074 <= eq.
Proof.
  intros He H. unfold SFdiv in H.
  pose proof (div_core_nonneg mm em mc (-43)) as N.
  unfold SFdiv_core_binary in H, N.
  set (e' := Z.min (fexp prec emax (Zdigits2 (Zpos mm) + em - (Zdigits2 (Zpos mc) + -43)))
                   (em - -43)) in *.
  assert (E : -1074 <= e') by (unfold e'; rewrite fexp64; lia).
  destruct (Z.div_eucl _ (Zpos mc)) as [qz r]. cbn [fst] in N.
  apply binary_round_aux_bracket in H; [|exact N]. split; [tauto|lia].
Qed.

(** A positive binary64 value below a coefficient, divided by it, is below 1:
    [1 - quotient] is positive. *)
Lemma div_by_coefficient_below_one mc mm em :
  coefficient_mantissa mc ->
  bounded prec emax mm em = true ->
  SFltb (S754_finite false mm em) (S754_finite false mc (-43)) = true ->
  let d := float_sub (float_of_int 1)
             (SFdiv prec emax (S754_finite false mm em) (S754_finite false mc (-43))) in
  has_sign false d /\ is_zero d = false.
Proof.
  intros Hc Hb Hlt.
  assert (O : em < -43 \/ (em = -43 /\ Zpos mm < Zpos mc)).
  { unfold SFltb, SFcompare in Hlt.
    destruct (Z.compare_spec em (-43)) as [->| |]; try discriminate; [right|left; lia].
    split; [reflexivity|]. rewrite Pos.compare_cont_spec in Hlt. simpl in Hlt.
    destruct (Pos.compare_spec mm mc); try discriminate. lia. }
  unfold bounded, canonical_mantissa in Hb.
  apply andb_prop in Hb. destruct Hb as [Hcan Hmax].
  apply Z.eqb_eq in Hcan. rewrite fexp64 in Hcan.
  assert (Dc : Zpos (digits2_pos mc) = 53) by (destruct Hc as [-> | ->]; reflexivity).
  pose proof (digits2_pos_bounds mm) as Bm.
  set (d1 := Zpos (digits2_pos mm)) in *.
  assert (Hd1 : 0 < d1 <= 53) by (unfold d1; lia).
  assert (Hem : -1074 <= em) by lia.
  assert (Bmm : Zpos mm < 2 ^ 53).
  { apply Z.lt_le_trans with (2 ^ d1); [lia|]. apply Z.pow_le_mono_r; lia. }
  cbv zeta.
  destruct O as [O|[-> O]].
  - (* at least one binade below the coefficient *)
    unfold SFdiv, SFdiv_core_binary. simpl Zdigits2. fold d1.
    rewrite Dc, fexp64.
    set (e' := Z.min (Z.max (d1 + em - (53 + -43) - 53) (-1074)) (em - -43)).
    assert (E1 : e' <= -54) by (unfold e'; lia).
    assert (E2 : -1074 <= e') by (unfold e'; lia).
    assert (S0 : 0 <= em - -43 - e') by (unfold e'; lia).
    set (m' := match em - -43 - e' with
               | 0 => Zpos mm
               | Zpos _ => Z.shiftl (Zpos mm) (em - -43 - e')
               | Zneg _ => 0
               end).
    assert (M : m' = Zpos mm * 2 ^ (em - -43 - e')).
    { unfold m'. destruct (em - -43 - e') as [|p|p] eqn:E; try lia.
      now rewrite Z.shiftl_mul_pow2 by lia. }
    clearbody m'.
    set (sh := em - -43 - e') in *.
    assert (PS : 0 < 2 ^ sh) by (apply Z.pow_pos_nonneg; lia).
    pose proof (Z_div_mod m' (Zpos mc) ltac:(lia)) as DM.
    destruct (Z.div_eucl m' (Zpos mc)) as [qz r]. destruct DM as [DM Hr].
    assert (Hq0 : 0 <= qz) by nia.
    assert (Mc : 5453577673768960 <= Zpos mc) by (destruct Hc as [-> | ->]; lia).
    change (2 ^ 53) with 9007199254740992 in Bmm.
    assert (Hqk : qz < 2 ^ (sh + 1)).
    { rewrite Z.pow_add_r, Z.pow_1_r by lia. nia. }
    cbn [xorb].
    pose proof (binary_round_aux_sign false qz e' (new_location (Zpos mc) r) Hq0) as Sg.
    pose proof (binary_round_aux_finite false qz e' (new_location (Zpos mc) r) (sh + 1)
                  ltac:(lia) (conj Hq0 Hqk) ltac:(lia) ltac:(unfold sh; lia)) as Fin.
    destruct (binary_round_aux prec emax false qz e' (new_location (Zpos mc) r))
      as [s|s| |s mq eq] eqn:Q; try discriminate Fin.
    + (* the quotient underflows to zero *)
      split; [constructor|reflexivity].
    + pose proof (binary_round_aux_exponent _ _ _ _ (sh + 1) _ _ _ ltac:(lia)
                    (conj Hq0 Hqk) Q) as Ehi.
      pose proof (binary_round_aux_bracket _ _ _ _ _ _ _ Hq0 Q) as (-> & Ele & Lo & _).
      assert (Eq52 : eq <= -52) by (unfold sh in Ehi; lia).
      apply one_minus_below_one; [lia|].
      (* were the quotient 1 or more, the dividend would reach the divisor *)
      destruct (Z.lt_ge_cases (Zpos mq) (2 ^ (- eq))) as [|Hone]; [assumption|exfalso].
      set (a := - eq) in *. set (b := eq - e') in *. set (t := - (em + 43)).
      assert (Ha : 52 <= a) by (unfold a; lia).
      assert (Hb : 0 <= b) by (unfold b; lia).
      assert (Ht : 1 <= t) by (unfold t; lia).
      assert (Hs : sh + t = a + b) by (unfold sh, t, a, b; lia).
      assert (PA : 2 ^ 52 <= 2 ^ a) by (apply Z.pow_le_mono_r; lia).
      assert (PB : 0 < 2 ^ b) by (apply Z.pow_pos_nonneg; lia).
      assert (PT : 2 <= 2 ^ t).
      { change 2 with (2 ^ 1) at 1. apply Z.pow_le_mono_r; lia. }
      assert (ST : 2 ^ sh * 2 ^ t = 2 ^ a * 2 ^ b).
      { rewrite <- !Z.pow_add_r by lia. now rewrite Hs. }
      change (2 ^ 52) with 4503599627370496 in PA.
      set (A := 2 ^ a) in *. set (B := 2 ^ b) in *.
      set (T := 2 ^ t) in *. set (S := 2 ^ sh) in *.
      clearbody A B T S.
      assert (K0 : (A - 1) * B <= qz) by nia.
      assert (K1 : (A - 1) * B * Zpos mc <= Zpos mm * S) by nia.
      assert (K2 : (A - 1) * B * Zpos mc * 2 <= Zpos mm * (A * B)).
      { rewrite <- ST. nia. }
      assert (K3 : (A - 1) * Zpos mc * 2 <= Zpos mm * A) by nia.
      nia.
  - (* the binade of the coefficient *)
    assert (Dm : d1 = 53) by lia. unfold d1 in Dm, Bm.
    rewrite Dm in Bm. change (2 ^ (53 - 1)) with (2 ^ 52) in Bm.
    unfold SFdiv. rewrite (div_core_by_coefficient mm (-43) mc Dm Dc) by lia.
    pose proof (Z_div_mod (Zpos mm * 2 ^ 53) (Zpos mc) ltac:(lia)) as DM.
    destruct (Z.div_eucl (Zpos mm * 2 ^ 53) (Zpos mc)) as [qz r].
    destruct DM as [DM Hr].
    destruct (quotient_range mc mm qz r Hc Bm DM Hr) as [Hq _].
    assert (Hq2 : qz + 1 < 2 ^ 53).
    { change (2 ^ 53) with 9007199254740992 in *.
      destruct Hc as [-> | ->]; lia. }
    cbn [xorb].
    destruct (round_no_carry false qz (-43 - 10) (new_location (Zpos mc) r))
      as (mq & -> & Hmq); [lia|lia|lia|].
    apply one_minus_below_one; [lia|].
    change (2 ^ (- (-43 - 10))) with (2 ^ 53). lia.
Qed.

Local Open Scope string_scope.

(** Below the coefficient (zero and negative mean stresses included) the
    divisor of the Goodman correction is positive. *)
Lemma goodman_divisor_below_coefficient x mc :
  coefficient_mantissa mc ->
  is_binary64 x = true ->
  SFltb x (S754_finite false mc (-43)) = true ->
  let d := float_sub (float_of_int 1) (SFdiv prec emax x (S754_finite false mc (-43))) in
  has_sign false d /\ is_zero d = false.
Proof.
  intros Hc Hv Hlt. cbv zeta.
  destruct x as [s|s| |s mm em]; try discriminate Hlt.
  - split; [|reflexivity]. cbn [SFdiv xorb].
    change (float_sub (float_of_int 1) (S754_zero (xorb s false)))
      with (S754_finite false 4503599627370496 (-52)). constructor.
  - destruct s; [|discriminate Hlt]. split; [constructor|reflexivity].
  - simpl in Hv. destruct s.
    + assert (Hem : (-1074 <= em)%Z).
      { unfold bounded, canonical_mantissa in Hv. apply andb_prop in Hv.
        destruct Hv as [Hcan _]. apply Z.eqb_eq in Hcan. rewrite fexp64 in Hcan. lia. }
      pose proof (div_core_nonneg mm em mc (-43)) as N.
      destruct (SFdiv prec emax (S754_finite true mm em) (S754_finite false mc (-43)))
        as [sq|sq| |sq mq eq] eqn:Q.
      * split; [|reflexivity].
        change (float_sub (float_of_int 1) (S754_zero sq))
          with (S754_finite false 4503599627370496 (-52)). constructor.
      * unfold SFdiv in Q.
        destruct (SFdiv_core_binary prec emax (Zpos mm) em (Zpos mc) (-43))
          as [[mz ez] lz]. cbn [fst] in N.
        pose proof (binary_round_aux_sign (xorb true false) mz ez lz N) as Sg.
        rewrite Q in Sg. inversion Sg. split; [constructor|reflexivity].
      * unfold SFdiv in Q.
        destruct (SFdiv_core_binary prec emax (Zpos mm) em (Zpos mc) (-43))
          as [[mz ez] lz]. cbn [fst] in N.
        pose proof (binary_round_aux_sign (xorb true false) mz ez lz N) as Sg.
        rewrite Q in Sg. inversion Sg.
      * destruct (div_by_coefficient_exponent _ _ _ _ _ _ _ Hem Q) as [-> Elo].
        now apply one_minus_negative.
    + now apply div_by_coefficient_below_one.
Qed.

(** The divisor of the Goodman correction is zero only at the coefficient. *)
Lemma goodman_divisor_zero_only_at_coefficient x mc :
  coefficient_mantissa mc ->
  is_binary64 x = true ->
  is_zero (float_sub (float_of_int 1) (SFdiv prec emax x (S754_finite false mc (-43))))
    = true ->
  x = S754_finite false mc (-43).
Proof.
  intros Hc Hv Hz.
  destruct (SFcompare x (S754_finite false mc (-43))) as [[| |]|] eqn:C.
  - assert (E : SFeqb x (S754_finite false mc (-43)) = true)
      by (unfold SFeqb; now rewrite C).
    now apply SFeqb_finite_pos in E.
  - destruct (goodman_divisor_below_coefficient x mc Hc Hv) as [_ Z].
    + unfold SFltb. now rewrite C.
    + cbv zeta in Z. congruence.
  - destruct x as [s|s| |s mm em].
    + destruct s; discriminate C.
    + destruct s; [discriminate C|].
      change (float_of_int 1) with (S754_finite false 4503599627370496 (-52)) in Hz.
      cbn [SFdiv float_sub SFsub is_zero xorb negb] in Hz. discriminate Hz.
    + discriminate C.
    + destruct s; [discriminate C|]. simpl in Hv.
      assert (G : SFltb (S754_finite false mc (-43)) (S754_finite false mm em) = true).
      { unfold SFltb, SFcompare in *.
        rewrite Pos.compare_cont_spec in *. cbn [Pos.switch_Eq] in *.
        rewrite (Z.compare_antisym em (-43)), (Pos.compare_antisym mm mc).
        destruct (em ?= -43)%Z; cbn [CompOpp]; try discriminate C; try reflexivity.
        destruct (mm ?= mc)%positive; cbn [CompOpp]; try discriminate C; reflexivity. }
      destruct (div_by_coefficient_above_one mc mm em Hc Hv G)
        as (mq & eq & Q & Hm & He & Hq).
      rewrite Q in Hz.
      destruct (one_minus_above_one mq eq Hm He Hq) as (m & e & D).
      rewrite D in Hz. discriminate Hz.
  - destruct x as [s|s| |s mm em]; try (destruct s; discriminate C).
    change (float_of_int 1) with (S754_finite false 4503599627370496 (-52)) in Hz.
    cbn [SFdiv float_sub SFsub is_zero] in Hz. discriminate Hz.
Qed.

(** X11. The Goodman correction fails exactly when the mean stress equals the
    fatigue-strength coefficient, and then by a division by zero: at no other
    binary64 mean stress, however close to the coefficient, does the divisor
    [1 - mean_stress / coefficient] round to zero. *)
Theorem goodman_fails_exactly_at_the_coefficient
    (data : FatigueInput) (props : MaterialProps) :
  dict_get material_props (lower (material data)) = Some props ->
  is_binary64 (mean_stress data) = true ->
  ((exists e, goodman_equivalent_stress data props = Raise e) <->
   SFeqb (mean_stress data) (float_of_int (fatigue_strength_coeff props)) = true) /\
  (forall e, goodman_equivalent_stress data props = Raise e ->
             e = ZeroDivisionError "float division by zero").
Proof.
  intros Hp Hv.
  assert (C : exists mc, coefficient_mantissa mc /\
                float_of_int (fatigue_strength_coeff props) = S754_finite false mc (-43)).
  { destruct (material_props_cases _ _ Hp) as [[_ ->]|[_ ->]]; eexists;
      (split; [|reflexivity]); [left|right]; reflexivity. }
  destruct C as (mc & Hmc & Ec).
  rewrite (goodman_unfolded data props mc Ec), Ec. cbv zeta.
  destruct (is_zero (float_sub (float_of_int 1)
              (SFdiv prec emax (mean_stress data) (S754_finite false mc (-43)))))
    eqn:Z.
  - apply goodman_divisor_zero_only_at_coefficient in Z; [|exact Hmc|exact Hv].
    split.
    + split; [intros _|intros _; eexists; reflexivity].
      rewrite Z. unfold SFeqb, SFcompare.
      rewrite Z.compare_refl, Pos.compare_cont_spec, Pos.compare_refl. reflexivity.
    + now intros e [= <-].
  - split.
    + split; [intros [e H]; discriminate H|].
      intros E. apply SFeqb_finite_pos in E. rewrite E in Z.
      destruct Hmc as [-> | ->]; discriminate Z.
    + intros e H. discriminate H.
Qed.

Lemma goodman_fails_exactly_at_the_coefficient_witness :
  ((exists e, goodman_equivalent_stress aluminum_case aluminum_props = Raise e) <->
   SFeqb (mean_stress aluminum_case)
     (float_of_int (fatigue_strength_coeff aluminum_props)) = true) /\
  (forall e, goodman_equivalent_stress aluminum_case aluminum_props = Raise e ->
             e = ZeroDivisionError "float division by zero").
Proof.
  apply (goodman_fails_exactly_at_the_coefficient aluminum_case aluminum_props);
    reflexivity.
Defined.

(** *** The sign of the equivalent stress *)

(** Beyond the coefficient the divisor of the Goodman correction is
    negative. *)
Lemma goodman_divisor_above_coefficient x mc :
  coefficient_mantissa mc ->
  is_binary64 x = true ->
  SFltb (S754_finite false mc (-43)) x = true ->
  let d := float_sub (float_of_int 1) (SFdiv prec emax x (S754_finite false mc (-43))) in
  has_sign true d /\ is_zero d = false.
Proof.
  intros Hc Hv Hgt. cbv zeta.
  destruct x as [s|s| |s mm em]; try discriminate Hgt.
  - destruct s; [discriminate Hgt|]. split; [constructor|reflexivity].
  - destruct s; [discriminate Hgt|].
    destruct (div_by_coefficient_above_one mc mm em Hc Hv Hgt)
      as (mq & eq & -> & Hm & He & Hq).
    destruct (one_minus_above_one mq eq Hm He Hq) as (m & e & ->).
    split; [constructor|reflexivity].
Qed.

(** A finite dividend over a divisor that is not zero: the signs combine. *)
Lemma div_finite_sign amp d sa sd :
  has_sign sa amp -> is_finite amp = true ->
  has_sign sd d -> is_zero d = false ->
  float_div amp d = Ok (SFdiv prec emax amp d) /\
  has_sign (xorb sa sd) (SFdiv prec emax amp d) /\
  (is_zero amp = true -> is_zero (SFdiv prec emax amp d) = true).
Proof.
  intros Ha Fa Hd Zd. unfold float_div. rewrite Zd. split; [reflexivity|].
  destruct Ha as [|ma ea|]; try discriminate Fa;
    destruct Hd as [|md ed|]; try discriminate Zd; cbn [SFdiv is_zero];
    try (split; [constructor|auto]).
  split; [|discriminate].
  pose proof (div_core_nonneg ma ea md ed) as N.
  destruct (SFdiv_core_binary prec emax (Zpos ma) ea (Zpos md) ed) as [[mz ez] lz].
  cbn [fst] in N. now apply binary_round_aux_sign.
Qed.

Lemma coefficient_shape props k :
  dict_get material_props k = Some props ->
  exists mc, coefficient_mantissa mc /\
             float_of_int (fatigue_strength_coeff props) = S754_finite false mc (-43).
Proof.
  intros Hp. destruct (material_props_cases _ _ Hp) as [[_ ->]|[_ ->]]; eexists;
    (split; [|reflexivity]); [left|right]; reflexivity.
Qed.

Lemma goodman_sign_below data props sa :
  dict_get material_props (lower (material data)) = Some props ->
  is_binary64 (mean_stress data) = true ->
  has_sign sa (stress_amplitude data) ->
  is_finite (stress_amplitude data) = true ->
  SFltb (mean_stress data) (float_of_int (fatigue_strength_coeff props)) = true ->
  exists es, goodman_equivalent_stress data props = Ok es /\ has_sign sa es.
Proof.
  intros Hp Hv Ha Fa Hlt. destruct (coefficient_shape _ _ Hp) as (mc & Hmc & Ec).
  rewrite Ec in Hlt. rewrite (goodman_unfolded data props mc Ec). cbv zeta.
  destruct (goodman_divisor_below_coefficient _ mc Hmc Hv Hlt) as [Sd Zd].
  cbv zeta in Sd, Zd. rewrite Zd.
  destruct (div_finite_sign _ _ _ _ Ha Fa Sd Zd) as (_ & S & _).
  eexists. split; [reflexivity|]. now rewrite xorb_false_r in S.
Qed.

Lemma goodman_sign_above data props sa :
  dict_get material_props (lower (material data)) = Some props ->
  is_binary64 (mean_stress data) = true ->
  has_sign sa (stress_amplitude data) ->
  is_finite (stress_amplitude data) = true ->
  SFltb (float_of_int (fatigue_strength_coeff props)) (mean_stress data) = true ->
  exists es, goodman_equivalent_stress data props = Ok es /\ has_sign (negb sa) es.
Proof.
  intros Hp Hv Ha Fa Hgt. destruct (coefficient_shape _ _ Hp) as (mc & Hmc & Ec).
  rewrite Ec in Hgt. rewrite (goodman_unfolded data props mc Ec). cbv zeta.
  destruct (goodman_divisor_above_coefficient _ mc Hmc Hv Hgt) as [Sd Zd].
  cbv zeta in Sd, Zd. rewrite Zd.
  destruct (div_finite_sign _ _ _ _ Ha Fa Sd Zd) as (_ & S & _).
  eexists. split; [reflexivity|]. now rewrite xorb_true_r in S.
Qed.

(** X12. For a supported material and a finite stress amplitude, the equivalent
    stress has the sign of the amplitude when the mean stress is below the
    fatigue-strength coefficient, and the opposite sign when it is above. *)
Theorem equivalent_stress_sign
    (data : FatigueInput) (props : MaterialProps) (sa : bool) :
  dict_get material_props (lower (material data)) = Some props ->
  is_binary64 (mean_stress data) = true ->
  has_sign sa (stress_amplitude data) ->
  is_finite (stress_amplitude data) = true ->
  (SFltb (mean_stress data) (float_of_int (fatigue_strength_coeff props)) = true ->
   exists es, goodman_equivalent_stress data props = Ok es /\ has_sign sa es) /\
  (SFltb (float_of_int (fatigue_strength_coeff props)) (mean_stress data) = true ->
   exists es, goodman_equivalent_stress data props = Ok es /\ has_sign (negb sa) es).
Proof.
  intros Hp Hv Ha Fa. split; intros H.
  - now apply goodman_sign_below.
  - now apply goodman_sign_above.
Qed.

Lemma equivalent_stress_sign_witness :
  (SFltb (mean_stress aluminum_case)
     (float_of_int (fatigue_strength_coeff aluminum_props)) = true ->
   exists es, goodman_equivalent_stress aluminum_case aluminum_props = Ok es /\
              has_sign false es) /\
  (SFltb (float_of_int (fatigue_strength_coeff aluminum_props))
     (mean_stress aluminum_case) = true ->
   exists es, goodman_equivalent_stress aluminum_case aluminum_props = Ok es /\
              has_sign (negb false) es).
Proof.
  apply (equivalent_stress_sign aluminum_case aluminum_props false);
    try reflexivity.
  vm_compute. constructor.
Defined.

(** X13. A negative stress amplitude is not rejected. For a supported
    material, a finite stress amplitude that carries the sign bit (negative,
    or -0.0) and a mean stress below the coefficient, the equivalent stress
    carries the sign bit too, hence is below every endurance limit: the life
    is the cap 10,000,000, and the analysis returns it when [cycles] is not
    zero and the safety factor is a number. (An amplitude of minus infinity
    is left out: over a mean stress of minus infinity it gives NaN.) *)
Theorem negative_amplitude_is_infinite_life
    (pow3 : float -> result float) (data : FatigueInput) (props : MaterialProps) :
  dict_get material_props (lower (material data)) = Some props ->
  is_binary64 (mean_stress data) = true ->
  has_sign true (stress_amplitude data) ->
  is_finite (stress_amplitude data) = true ->
  SFltb (mean_stress data) (float_of_int (fatigue_strength_coeff props)) = true ->
  exists es,
    goodman_equivalent_stress data props = Ok es /\
    has_sign true es /\
    sn_cycles_to_failure pow3 props es = Ok 10000000 /\
    (forall sf, cycles data <> 0 -> safety_factor data = Some sf ->
       analyze_fatigue pow3 data =
         Ok {| cycles_to_failure := 10000000;
               safety_margin :=
                 SFdiv prec emax (exact_int 10000000) (exact_int (cycles data));
               is_safe :=
                 float_ge (SFdiv prec emax (exact_int 10000000)
                             (exact_int (cycles data))) sf;
               analysis_method := method_label |}).
Proof.
  intros Hp Hv Ha Fa Hlt.
  destruct (goodman_sign_below data props true Hp Hv Ha Fa Hlt) as (es & Hes & Hs).
  assert (Hn : sn_cycles_to_failure pow3 props es = Ok 10000000).
  { unfold sn_cycles_to_failure.
    now rewrite (negative_le_limit es props _ Hp Hs). }
  exists es. repeat (split; [assumption|]).
  intros sf Hc Hsf.
  unfold analyze_fatigue. rewrite Hp, Hes. cbn [bind].
  rewrite Hn. cbn [bind].
  rewrite (cap_truediv (cycles data) Hc). cbn [bind].
  rewrite Hsf. reflexivity.
Qed.

Lemma negative_amplitude_is_infinite_life_witness :
  exists es,
    goodman_equivalent_stress negative_amplitude_case aluminum_props = Ok es /\
    has_sign true es /\
    sn_cycles_to_failure pow3_rounded aluminum_props es = Ok 10000000 /\
    (forall sf, cycles negative_amplitude_case <> 0 ->
       safety_factor negative_amplitude_case = Some sf ->
       analyze_fatigue pow3_rounded negative_amplitude_case =
         Ok {| cycles_to_failure := 10000000;
               safety_margin :=
                 SFdiv prec emax (exact_int 10000000)
                   (exact_int (cycles negative_amplitude_case));
               is_safe :=
                 float_ge (SFdiv prec emax (exact_int 10000000)
                             (exact_int (cycles negative_amplitude_case))) sf;
               analysis_method := method_label |}).
Proof.
  apply (negative_amplitude_is_infinite_life pow3_rounded negative_amplitude_case
           aluminum_props);
    try reflexivity.
  vm_compute. constructor.
Defined.

(** X14. A stress amplitude of zero (0.0 or -0.0) gives an equivalent stress
    of zero and the capped life of 10,000,000 at every mean stress that is a
    number other than the coefficient, above it as well as below. *)
Theorem zero_amplitude_is_infinite_life
    (pow3 : float -> result float) (data : FatigueInput) (props : MaterialProps) :
  dict_get material_props (lower (material data)) = Some props ->
  is_zero (stress_amplitude data) = true ->
  is_binary64 (mean_stress data) = true ->
  is_nan (mean_stress data) = false ->
  SFeqb (mean_stress data) (float_of_int (fatigue_strength_coeff props)) = false ->
  exists es,
    goodman_equivalent_stress data props = Ok es /\
    is_zero es = true /\
    sn_cycles_to_failure pow3 props es = Ok 10000000.
Proof.
  intros Hp Hz Hv Hn Hne. destruct (coefficient_shape _ _ Hp) as (mc & Hmc & Ec).
  rewrite Ec in Hne. rewrite (goodman_unfolded data props mc Ec). cbv zeta.
  destruct (div_by_coefficient_sign (mean_stress data) mc Hn) as [s Hs].
  destruct (one_minus_sign _ _ Hs) as [sd Hd].
  destruct (is_zero (float_sub (float_of_int 1)
              (SFdiv prec emax (mean_stress data) (S754_finite false mc (-43)))))
    eqn:Zd.
  - apply goodman_divisor_zero_only_at_coefficient in Zd; [|exact Hmc|exact Hv].
    rewrite Zd in Hne. unfold SFeqb, SFcompare in Hne.
    rewrite Z.compare_refl, Pos.compare_cont_spec, Pos.compare_refl in Hne.
    discriminate Hne.
  - assert (Ha : exists sa, has_sign sa (stress_amplitude data)).
    { destruct (stress_amplitude data) as [sa| | |]; try discriminate Hz.
      exists sa. constructor. }
    destruct Ha as [sa Ha].
    assert (Fa : is_finite (stress_amplitude data) = true).
    { destruct (stress_amplitude data); try discriminate Hz. reflexivity. }
    destruct (div_finite_sign _ _ _ _ Ha Fa Hd Zd) as (_ & _ & Z).
    eexists. split; [reflexivity|]. split; [now apply Z|].
    specialize (Z Hz). unfold sn_cycles_to_failure.
    destruct (SFdiv prec emax (stress_amplitude data) _) as [sz| | |];
      try discriminate Z.
    destruct (material_props_cases _ _ Hp) as [[_ ->]|[_ ->]]; reflexivity.
Qed.

Lemma zero_amplitude_is_infinite_life_witness :
  exists es,
    goodman_equivalent_stress zero_amplitude_case steel_props = Ok es /\
    is_zero es = true /\
    sn_cycles_to_failure pow3_rounded steel_props es = Ok 10000000.
Proof.
  apply (zero_amplitude_is_infinite_life pow3_rounded zero_amplitude_case steel_props);
    reflexivity.
Defined.

(** *** The margin of a returned result *)

Lemma SFdiv_ints_not_nan a b :
  b <> 0%Z -> is_nan (SFdiv prec emax (exact_int a) (exact_int b)) = false.
Proof.
  intros Hb.
  assert (G : forall sa pa sb pb,
             is_nan (SFdiv prec emax (S754_finite sa pa 0) (S754_finite sb pb 0)) = false).
  { intros sa pa sb pb. unfold SFdiv.
    pose proof (div_core_nonneg pa 0 pb 0) as N.
    destruct (SFdiv_core_binary prec emax (Zpos pa) 0 (Zpos pb) 0) as [[mz ez] lz].
    cbn [fst] in N.
    destruct (binary_round_aux_sign (xorb sa sb) mz ez lz N); reflexivity. }
  destruct a as [|pa|pa]; destruct b as [|pb|pb]; try contradiction;
    try reflexivity; apply G.
Qed.

(** X15. The safety margin of a returned result is a finite number: neither
    NaN nor an infinity leaves the analysis as a margin, whatever the
    stresses were. *)
Theorem returned_margin_is_finite
    (pow3 : float -> result float) (data : FatigueInput) (r : FatigueResult) :
  analyze_fatigue pow3 data = Ok r ->
  is_finite (safety_margin r) = true /\ is_nan (safety_margin r) = false.
Proof.
  intros H.
  destruct (analyze_fatigue_returns pow3 data r H)
    as (props & es & n & margin & sf & _ & _ & _ & Hm & _ & ->).
  cbn [safety_margin]. unfold int_truediv in Hm.
  destruct (Z.eqb_spec (cycles data) 0) as [|Hc]; [discriminate|].
  pose proof (SFdiv_ints_not_nan n (cycles data) Hc) as N.
  destruct (SFdiv prec emax (exact_int n) (exact_int (cycles data)));
    try discriminate; injection Hm as <-; split; reflexivity.
Qed.

Lemma returned_margin_is_finite_witness :
  is_finite (safety_margin aluminum_result) = true /\
  is_nan (safety_margin aluminum_result) = false.
Proof.
  apply (returned_margin_is_finite pow3_rounded aluminum_case aluminum_result).
  vm_compute. reflexivity.
Defined.

(** *** The life estimate is never negative *)

Lemma pow3_rounded_sign_respecting : sign_respecting pow3_rounded.
Proof.
  intros x c H. unfold pow3_rounded in H. split.
  - intros N. destruct x; try discriminate N. simpl in H. now injection H as <-.
  - intros S. destruct S as [|m e|]; cbn [cube_rounded is_finite] in H.
    + injection H as <-. constructor.
    + pose proof (binary_round_sign false (m * m * m) (3 * e)) as B.
      destruct (binary_round prec emax false (m * m * m) (3 * e));
        try discriminate H; injection H as <-; exact B.
    + injection H as <-. constructor.
Qed.

Lemma above_limit_is_positive es props k :
  dict_get material_props k = Some props ->
  float_le es (float_of_int (endurance_limit props)) = false ->
  is_nan es = true \/ (has_sign false es /\ is_zero es = false).
Proof.
  intros Hp H.
  destruct (material_props_cases _ _ Hp) as [[_ ->]|[_ ->]];
    cbn [endurance_limit] in H;
    (destruct es as [s|s| |s m e]; [discriminate H| | |]);
    try (left; reflexivity);
    (destruct s; [discriminate H|]);
    right; (split; [constructor|reflexivity]).
Qed.

Lemma mul_by_thousand_sign x :
  has_sign false x -> has_sign false (float_mul x (float_of_int 1000)).
Proof.
  change (float_of_int 1000) with (S754_finite false 8796093022208000 (-43)).
  intros [|m e|]; unfold float_mul; cbn [SFmul xorb]; try constructor.
  apply binary_round_aux_sign. lia.
Qed.

Lemma int_of_positive x n :
  has_sign false x -> int_of_float x = Ok n -> 0 <= n.
Proof.
  intros [|m e|] H; cbn [int_of_float] in H; try discriminate H;
    injection H as <-; [lia|]. apply Z.shiftl_nonneg. lia.
Qed.

Lemma sn_life_nonneg pow3 props k es n :
  sign_respecting pow3 ->
  dict_get material_props k = Some props ->
  sn_cycles_to_failure pow3 props es = Ok n ->
  0 <= n.
Proof.
  intros Hpow Hp Hn. unfold sn_cycles_to_failure in Hn.
  destruct (float_le es (float_of_int (endurance_limit props))) eqn:Hle.
  - injection Hn as <-. lia.
  - destruct (coefficient_shape _ _ Hp) as (mc & _ & Ec). rewrite Ec in Hn.
    destruct (above_limit_is_positive es props _ Hp Hle) as [N|[S Z]].
    + destruct es; try discriminate N.
      unfold float_div in Hn. cbn [is_zero SFdiv bind] in Hn.
      destruct (pow3 S754_nan) as [cube|] eqn:Hc; cbn [bind] in Hn; [|discriminate Hn].
      destruct (Hpow _ _ Hc) as [Hnan _]. specialize (Hnan eq_refl).
      destruct cube; try discriminate Hnan. discriminate Hn.
    + destruct (div_finite_sign (S754_finite false mc (-43)) es false false
                  ltac:(constructor) eq_refl S Z) as (D & B & _).
      rewrite D in Hn. cbn [bind xorb] in Hn, B.
      destruct (pow3 (SFdiv prec emax (S754_finite false mc (-43)) es)) as [cube|] eqn:Hc;
        cbn [bind] in Hn; [|discriminate Hn].
      destruct (Hpow _ _ Hc) as [_ Hs].
      exact (int_of_positive _ _ (mul_by_thousand_sign _ (Hs B)) Hn).
Qed.

(** X16. The life estimate of a returned result is never negative, whatever
    the signs of the stresses: beyond the endurance limit the equivalent
    stress is positive, so are the base of the power law, its cube and the
    truncated product. (The cube keeps the sign of its base and keeps NaN, as
    [x ** 3] does.) *)
Theorem life_is_never_negative
    (pow3 : float -> result float) (data : FatigueInput) (r : FatigueResult) :
  sign_respecting pow3 ->
  analyze_fatigue pow3 data = Ok r ->
  0 <= cycles_to_failure r.
Proof.
  intros Hpow H.
  destruct (analyze_fatigue_returns pow3 data r H)
    as (props & es & n & margin & sf & Hp & _ & Hn & _ & _ & ->).
  exact (sn_life_nonneg pow3 props _ es n Hpow Hp Hn).
Qed.

Lemma life_is_never_negative_witness : 0 <= cycles_to_failure aluminum_result.
Proof.
  apply (life_is_never_negative pow3_rounded aluminum_case aluminum_result).
  - exact pow3_rounded_sign_respecting.
  - vm_compute. reflexivity.
Defined.

(** *** A negative number of applied cycles *)
Lemma positive_above_signed sf x :
  SFltb (float_of_int 0) sf = true -> has_sign true x -> SFleb sf x = false.
Proof.
  change (float_of_int 0) with (S754_zero false).
  intros Hp Hx. destruct Hx;
    destruct sf as [s|s| |s m' e']; try discriminate Hp;
    destruct s; try discriminate Hp; reflexivity.
Qed.

(** X17. A negative [cycles] is not rejected. In every result returned for
    such an input under a positive safety factor, the margin carries the sign
    bit (it is negative, or -0.0) and the verdict is not safe. *)
Theorem negative_cycles_are_never_safe
    (pow3 : float -> result float) (data : FatigueInput) (r : FatigueResult)
    (sf : float) :
  sign_respecting pow3 ->
  analyze_fatigue pow3 data = Ok r ->
  cycles data < 0 ->
  safety_factor data = Some sf ->
  SFltb (float_of_int 0) sf = true ->
  has_sign true (safety_margin r) /\ is_safe r = false.
Proof.
  intros Hpow H Hc Hsf Hpos.
  destruct (analyze_fatigue_returns _ _ _ H)
    as (props & es & n & margin & s & Hp & _ & Hl & Hm & Hs & ->).
  pose proof (sn_life_nonneg pow3 props _ es n Hpow Hp Hl) as Hn.
  cbn [cycles_to_failure safety_margin is_safe] in *.
  assert (s = sf) by congruence. subst s.
  assert (S : has_sign true margin).
  { unfold int_truediv in Hm.
    destruct (Z.eqb_spec (cycles data) 0); [discriminate|].
    destruct (cycles data) as [|p|p]; try lia.
    destruct n as [|q|q]; try lia; cbn [exact_int] in Hm.
    - cbn in Hm. injection Hm as <-. constructor.
    - unfold SFdiv in Hm. pose proof (div_core_nonneg q 0 p 0) as N.
      destruct (SFdiv_core_binary prec emax (Zpos q) 0 (Zpos p) 0) as [[mz ez] lz].
      cbn [fst] in N. cbn [xorb] in Hm.
      pose proof (binary_round_aux_sign true mz ez lz N) as B.
      destruct (binary_round_aux prec emax true mz ez lz); try discriminate Hm;
        injection Hm as <-; exact B. }
  split; [exact S|]. unfold float_ge. now apply positive_above_signed.
Qed.

Lemma negative_cycles_are_never_safe_witness :
  has_sign true (safety_margin negative_cycles_result) /\
  is_safe negative_cycles_result = false.
Proof.
  apply (negative_cycles_are_never_safe pow3_rounded negative_cycles_case
           negative_cycles_result (lit 2));
    [exact pow3_rounded_sign_respecting| | | |]; vm_compute; reflexivity.
Defined.
